(** * VIP Coding Universe: the multi-tenant record/relation graph store

    A shallow embedding of [app.py] and [seed_test_data.py].

    - Python [int] values are modelled as [Z]; SQLite holds an integer in 64
      bits, and binding a Python [int] outside that range to a statement
      raises [OverflowError].
    - Python [str] values are modelled as lists of Unicode code points.
    - Every SQL table is the list of its rows in rowid order: SQLite gives a
      new row of an [INTEGER PRIMARY KEY] table the rowid one above the
      largest in use, and a query without [ORDER BY] scans the table by
      rowid.
    - A request handler is a function from the session, the request
      parameters, the clock reading and the database to a response and the
      database after the request. An uncaught Python exception is the
      response [Raised]; the transaction is then rolled back. *)

From Stdlib Require Import String Ascii.
From Stdlib Require Import ZArith NArith List Bool Lia Sorted.
Import ListNotations.
Open Scope Z_scope.

(** ** Python strings *)

Module PyStr.

Definition str := list N.

(** [str.isspace] on one code point (CPython's [_PyUnicode_IsWhitespace]). *)
Definition isspace (c : N) : bool :=
  ((9 <=? c) && (c <=? 13) || (28 <=? c) && (c <=? 32)
   || (c =? 133) || (c =? 160) || (c =? 5760)
   || (8192 <=? c) && (c <=? 8202)
   || (c =? 8232) || (c =? 8233) || (c =? 8239) || (c =? 8287)
   || (c =? 12288))%N.

Fixpoint lstrip (s : str) : str :=
  match s with
  | [] => []
  | c :: rest => if isspace c then lstrip rest else s
  end.

Definition rstrip (s : str) : str := rev (lstrip (rev s)).

(** [s.strip()] *)
Definition strip (s : str) : str := rstrip (lstrip s).

(** [not s] *)
Definition is_empty (s : str) : bool :=
  match s with [] => true | _ :: _ => false end.

(** [v or ""] for [v] a string or [None] *)
Definition or_empty (v : option str) : str :=
  match v with Some s => s | None => [] end.

(** [s1 == s2] *)
Fixpoint eqb (s1 s2 : str) : bool :=
  match s1, s2 with
  | [], [] => true
  | c1 :: r1, c2 :: r2 => (c1 =? c2)%N && eqb r1 r2
  | _, _ => false
  end.

(** An ASCII literal as a Python string. *)
Definition of_string (s : string) : str :=
  map N_of_ascii (list_ascii_of_string s).

End PyStr.

Abbreviation str := PyStr.str.

(** ** Database models *)

Module Company.
Record t := mk {
  id : Z;
  name : str;
  street : option str;
  house_number : option str;
  postal_code : option str;
  city : option str;
  created_at : Z
}.
End Company.

Module User.
Record t := mk {
  id : Z;
  email : str;
  password_hash : str;
  is_superadmin : bool;
  company_id : option Z
}.
End User.

(** [class Record]. The columns [description] and [group] may be [NULL]. *)
Module Record_.
Record t := mk {
  id : Z;
  company_id : Z;
  name : str;
  description : option str;
  group : option str;
  created_at : Z
}.
End Record_.

(** An undirected relation, stored as [(min_id, max_id)] in [(a_id, b_id)]. *)
Module RecordRelation.
Record t := mk {
  id : Z;
  a_id : Z;
  b_id : Z;
  company_id : Z;
  created_at : Z
}.
End RecordRelation.

Record Db := mkDb {
  companies : list Company.t;
  users : list User.t;
  records : list Record_.t;
  relations : list RecordRelation.t
}.

(** The tables right after [Base.metadata.create_all]. *)
Definition empty_db : Db := mkDb [] [] [] [].

Definition set_companies (db : Db) (l : list Company.t) : Db :=
  mkDb l (users db) (records db) (relations db).
Definition set_users (db : Db) (l : list User.t) : Db :=
  mkDb (companies db) l (records db) (relations db).
Definition set_records (db : Db) (l : list Record_.t) : Db :=
  mkDb (companies db) (users db) l (relations db).
Definition set_relations (db : Db) (l : list RecordRelation.t) : Db :=
  mkDb (companies db) (users db) (records db) l.

(** The rowid SQLite assigns to a row inserted without an explicit id. *)
Definition next_rowid (ids : list Z) : Z :=
  match ids with
  | [] => 1
  | i :: rest => 1 + fold_left Z.max rest i
  end.

(** [column == value] in a filter, for a [NOT NULL] column: a [None] value
    compiles to [IS NULL] and matches no row. *)
Definition eq_col (x : Z) (v : option Z) : bool :=
  match v with
  | Some y => x =? y
  | None => false
  end.

(** Truth value of an integer that may be [None]. *)
Definition truthy (v : option Z) : bool :=
  match v with
  | Some n => negb (n =? 0)
  | None => false
  end.

(** ** Requests and responses *)

Record Session := mkSession {
  user_id : option Z;
  is_superadmin : bool;
  company_id : option Z
}.

(** A request parameter that the handler converts with [int]. *)
Inductive IntField :=
| Missing
| Malformed
| Parsed (n : Z).

Inductive Exn :=
| TypeError
| ValueError
| AttributeError
| IntegrityError
| OverflowError.

(** [int(request.form.get(key))] *)
Definition py_int (f : IntField) : Exn + Z :=
  match f with
  | Missing => inl TypeError
  | Malformed => inl ValueError
  | Parsed n => inr n
  end.

(** [request.args.get(key, type=int)] *)
Definition get_int (f : IntField) : option Z :=
  match f with
  | Parsed n => Some n
  | _ => None
  end.

(** The messages handed to [flash]. *)
Inductive Flash :=
| NotAuthorized          (* "Nicht berechtigt." *)
| CompanyNameRequired    (* "Firmenname ist erforderlich." *)
| CompanyCreated         (* "Firma angelegt." *)
| EmailPasswordRequired  (* "E-Mail und Passwort sind erforderlich." *)
| ChooseCompany          (* "Bitte eine Firma wählen." *)
| EmailTaken             (* "E-Mail bereits vergeben." *)
| UserCreated            (* "User angelegt." *)
| NameRequired           (* "Name ist erforderlich." *)
| ActAsCompanyUser       (* "Bitte als Firmen-User agieren." *)
| RecordCreated          (* "Datensatz angelegt." *)
| SelfRelation           (* "Relation zu sich selbst ist nicht erlaubt." *)
| InvalidRecordIds       (* "Ungültige Datensatz-IDs." *)
| RelationCreated        (* "Relation angelegt." *)
| RelationExists         (* "Relation existiert bereits." *)
| RelationDeleted        (* "Relation gelöscht." *)
| RelationNotFound.      (* "Relation nicht gefunden." *)

Inductive Category := error | success | info.

Definition category (m : Flash) : Category :=
  match m with
  | CompanyCreated | UserCreated | RecordCreated
  | RelationCreated | RelationDeleted => success
  | RelationExists => info
  | _ => error
  end.

Inductive Endpoint := ep_index | ep_login | ep_admin | ep_records.

Record Node := mkNode {
  node_id : Z;
  node_name : str;
  node_description : str;
  node_group : str
}.

Record Edge := mkEdge { a : Z; b : Z }.

(** The JSON object built by [api_graph]. *)
Record Graph := mkGraph {
  nodes : list Node;
  edges : list Edge;
  graph_company_id : option Z;
  ts : Z
}.

Inductive Response :=
| Redirect (flashed : option Flash) (target : Endpoint)
| Json (g : Graph)
| JsonError400
| Raised (e : Exn).

Definition Handler := Db -> Response * Db.

(** ** Helpers *)

Definition login_required (ss : Session) (fn : Handler) : Handler :=
  fun db =>
    if negb (truthy (user_id ss)) then (Redirect None ep_login, db)
    else fn db.

Definition superadmin_required (ss : Session) (fn : Handler) : Handler :=
  fun db =>
    if negb (truthy (user_id ss)) || negb (is_superadmin ss)
    then (Redirect (Some NotAuthorized) ep_index, db)
    else fn db.

Definition current_user (ss : Session) (db : Db) : option User.t :=
  match user_id ss with
  | None => None
  | Some uid =>
      if uid =? 0 then None
      else hd_error (filter (fun u => User.id u =? uid) (users db))
  end.

(** ** SQLite integers

    sqlite3 raises [OverflowError] when a Python [int] that SQLite cannot
    hold is bound to a statement. SQLite holds the integers of 64 bits. A
    table of the model stands for a table of a real store, so an integer
    found in a table is one that SQLite holds. The routes bind integers of
    the request and of the session, which may be any Python [int], and
    integers read from a row, which SQLite holds. *)

Definition int64 (n : Z) : bool := (- 2 ^ 63 <=? n) && (n <? 2 ^ 63).

Definition stored_integers (db : Db) : list Z :=
  map Company.id (companies db)
  ++ map User.id (users db)
  ++ flat_map (fun u => match User.company_id u with
                         | Some c => [c]
                         | None => []
                         end) (users db)
  ++ map Record_.id (records db)
  ++ map Record_.company_id (records db)
  ++ map RecordRelation.id (relations db)
  ++ map RecordRelation.a_id (relations db)
  ++ map RecordRelation.b_id (relations db)
  ++ map RecordRelation.company_id (relations db).

Definition sqlite_integer (db : Db) (n : Z) : bool :=
  int64 n || existsb (Z.eqb n) (stored_integers db).

(** [current_user(db)] as the routes call it, after [login_required]: the
    query binds the session's user id. *)
Definition session_user (ss : Session) (db : Db) : Exn + option User.t :=
  match user_id ss with
  | None => inr None
  | Some uid =>
      if uid =? 0 then inr None
      else if sqlite_integer db uid then inr (current_user ss db)
      else inl OverflowError
  end.

Definition normalized_pair (id1 id2 : Z) : Z * Z :=
  if id1 <? id2 then (id1, id2) else (id2, id1).

(** ** Inserts

    [db.add(row); db.commit()]. The commit raises [IntegrityError] when the
    row violates a [NOT NULL] or [UNIQUE] constraint of its table. *)

Definition insert_company (name : str)
    (street house_number postal_code city : option str) (now : Z)
    (db : Db) : Db :=
  let c := Company.mk (next_rowid (map Company.id (companies db)))
             name street house_number postal_code city now in
  set_companies db (companies db ++ [c]).

Definition insert_user (email password_hash : str) (is_superadmin : bool)
    (company_id : option Z) (db : Db) : option Db :=
  if existsb (fun u => PyStr.eqb (User.email u) email) (users db)
  then None
  else
    let u := User.mk (next_rowid (map User.id (users db)))
               email password_hash is_superadmin company_id in
    Some (set_users db (users db ++ [u])).

Definition insert_record (company_id : option Z) (name : str)
    (description group : option str) (now : Z) (db : Db) : option Db :=
  match company_id with
  | None => None
  | Some cid =>
      let r := Record_.mk (next_rowid (map Record_.id (records db)))
                 cid name description group now in
      Some (set_records db (records db ++ [r]))
  end.

(** The table carries [UniqueConstraint("a_id", "b_id")]. *)
Definition insert_relation (a_id b_id : Z) (company_id : option Z) (now : Z)
    (db : Db) : option Db :=
  match company_id with
  | None => None
  | Some cid =>
      if existsb (fun r => (RecordRelation.a_id r =? a_id)
                           && (RecordRelation.b_id r =? b_id))
           (relations db)
      then None
      else
        let rel := RecordRelation.mk
                     (next_rowid (map RecordRelation.id (relations db)))
                     a_id b_id cid now in
        Some (set_relations db (relations db ++ [rel]))
  end.

(** ** Routes: company users, records and relations *)

(** [(request.form.get(key) or "").strip()] *)
Definition form_text (v : option str) : str :=
  PyStr.strip (PyStr.or_empty v).

Definition create_record (ss : Session)
    (form_name form_description form_group : option str) (now : Z)
    : Handler :=
  login_required ss (fun db =>
    let name := form_text form_name in
    let description := form_text form_description in
    let group := form_text form_group in
    if PyStr.is_empty name then (Redirect (Some NameRequired) ep_records, db)
    else
      match session_user ss db with
      | inl e => (Raised e, db)
      | inr None => (Raised AttributeError, db)
      | inr (Some user) =>
          if User.is_superadmin user || negb (truthy (User.company_id user))
          then (Redirect (Some ActAsCompanyUser) ep_records, db)
          else
            match insert_record (User.company_id user)
                    name (Some description) (Some group) now db with
            | None => (Raised IntegrityError, db)
            | Some db' => (Redirect (Some RecordCreated) ep_records, db')
            end
      end).

(** The number of rows of [record] owned by [company_id] whose id is in
    [ids]. *)
Definition count_records (company_id : option Z) (ids : list Z) (db : Db)
    : nat :=
  length (filter (fun r => eq_col (Record_.company_id r) company_id
                           && existsb (fun i => Record_.id r =? i) ids)
            (records db)).

(** [filter_by(a_id=a, b_id=b, company_id=company_id).first()] *)
Definition find_relation (a_id b_id : Z) (company_id : option Z) (db : Db)
    : option RecordRelation.t :=
  hd_error (filter (fun r => (RecordRelation.a_id r =? a_id)
                             && (RecordRelation.b_id r =? b_id)
                             && eq_col (RecordRelation.company_id r) company_id)
              (relations db)).

Definition create_relation (ss : Session) (form_a_id form_b_id : IntField)
    (now : Z) : Handler :=
  login_required ss (fun db =>
    match py_int form_a_id with
    | inl e => (Raised e, db)
    | inr a_id =>
    match py_int form_b_id with
    | inl e => (Raised e, db)
    | inr b_id =>
        if a_id =? b_id then (Redirect (Some SelfRelation) ep_records, db)
        else
          match session_user ss db with
          | inl e => (Raised e, db)
          | inr None => (Raised AttributeError, db)
          | inr (Some user) =>
              if User.is_superadmin user
                 || negb (truthy (User.company_id user))
              then (Redirect (Some ActAsCompanyUser) ep_records, db)
              else if negb (sqlite_integer db a_id && sqlite_integer db b_id)
              then (Raised OverflowError, db)
              else
                let count :=
                  count_records (User.company_id user) [a_id; b_id] db in
                if negb (Nat.eqb count 2)
                then (Redirect (Some InvalidRecordIds) ep_records, db)
                else
                  let '(a, b) := normalized_pair a_id b_id in
                  match find_relation a b (User.company_id user) db with
                  | Some _ =>
                      (Redirect (Some RelationExists) ep_records, db)
                  | None =>
                      match insert_relation a b (User.company_id user)
                              now db with
                      | None => (Raised IntegrityError, db)
                      | Some db' =>
                          (Redirect (Some RelationCreated) ep_records, db')
                      end
                  end
          end
    end
    end).

Definition delete_relation (ss : Session) (form_rel_id : IntField)
    : Handler :=
  login_required ss (fun db =>
    match py_int form_rel_id with
    | inl e => (Raised e, db)
    | inr rel_id =>
        match session_user ss db with
        | inl e => (Raised e, db)
        | inr None => (Raised AttributeError, db)
        | inr (Some user) =>
            if User.is_superadmin user
               || negb (truthy (User.company_id user))
            then (Redirect (Some ActAsCompanyUser) ep_records, db)
            else if negb (sqlite_integer db rel_id)
            then (Raised OverflowError, db)
            else
              let rel :=
                hd_error
                  (filter (fun r =>
                             (RecordRelation.id r =? rel_id)
                             && eq_col (RecordRelation.company_id r)
                                  (User.company_id user))
                     (relations db)) in
              match rel with
              | Some rel =>
                  (Redirect (Some RelationDeleted) ep_records,
                   set_relations db
                     (filter (fun r => negb (RecordRelation.id r
                                             =? RecordRelation.id rel))
                        (relations db)))
              | None => (Redirect (Some RelationNotFound) ep_records, db)
              end
        end
    end).

(** ** Live view *)

Definition node_of (r : Record_.t) : Node :=
  mkNode (Record_.id r) (Record_.name r)
    (PyStr.or_empty (Record_.description r))
    (PyStr.or_empty (Record_.group r)).

Definition edge_of (rel : RecordRelation.t) : Edge :=
  mkEdge (RecordRelation.a_id rel) (RecordRelation.b_id rel).

(** The snapshot of one company: its records and relations in table
    order. *)
Definition graph_of (company_id : option Z) (now_ts : Z) (db : Db) : Graph :=
  let recs :=
    filter (fun r => eq_col (Record_.company_id r) company_id)
      (records db) in
  let rels :=
    filter (fun r => eq_col (RecordRelation.company_id r) company_id)
      (relations db) in
  mkGraph (map node_of recs) (map edge_of rels) company_id now_ts.

Definition api_graph (ss : Session) (arg_company_id : IntField) (now_ts : Z)
    : Handler :=
  login_required ss (fun db =>
    match session_user ss db with
    | inl e => (Raised e, db)
    | inr None => (Raised AttributeError, db)
    | inr (Some user) =>
        let company_id := get_int arg_company_id in
        if negb (User.is_superadmin user)
        then (Json (graph_of (User.company_id user) now_ts db), db)
        else if negb (truthy company_id) then (JsonError400, db)
        else if negb (match company_id with
                      | Some n => sqlite_integer db n
                      | None => true
                      end)
        then (Raised OverflowError, db)
        else (Json (graph_of company_id now_ts db), db)
    end).

(** ** Routes: super admin *)

Definition create_company (ss : Session)
    (form_name form_street form_house_number form_postal_code form_city
       : option str) (now : Z) : Handler :=
  superadmin_required ss (fun db =>
    let name := form_text form_name in
    let street := form_text form_street in
    let house_number := form_text form_house_number in
    let postal_code := form_text form_postal_code in
    let city := form_text form_city in
    if PyStr.is_empty name
    then (Redirect (Some CompanyNameRequired) ep_admin, db)
    else
      (Redirect (Some CompanyCreated) ep_admin,
       insert_company name (Some street) (Some house_number)
         (Some postal_code) (Some city) now db)).

(** [email] is the form's e-mail address after [.strip().lower()], and
    [password_hash] is what [generate_password_hash] returns for the form's
    password. *)
Definition create_user (ss : Session) (email : str)
    (form_password : option str) (form_company_id : IntField)
    (form_is_superadmin : option str) (password_hash : str) : Handler :=
  superadmin_required ss (fun db =>
    let password := PyStr.or_empty form_password in
    let is_superadmin :=
      negb (PyStr.is_empty (PyStr.or_empty form_is_superadmin)) in
    if PyStr.is_empty email || PyStr.is_empty password
    then (Redirect (Some EmailPasswordRequired) ep_admin, db)
    else
      let company_id_val :=
        if is_superadmin then inr None
        else match py_int form_company_id with
             | inl e => inl e
             | inr n => inr (Some n)
             end in
      match company_id_val with
      | inl _ => (Redirect (Some ChooseCompany) ep_admin, db)
      | inr company_id_val =>
          if existsb (fun u => PyStr.eqb (User.email u) email) (users db)
          then (Redirect (Some EmailTaken) ep_admin, db)
          else if negb (match company_id_val with
                        | Some n => sqlite_integer db n
                        | None => true
                        end)
          then (Raised OverflowError, db)
          else
            match insert_user email password_hash is_superadmin
                    company_id_val db with
            | None => (Raised IntegrityError, db)
            | Some db' => (Redirect (Some UserCreated) ep_admin, db')
            end
      end).

Definition INITIAL_ADMIN_EMAIL : str := PyStr.of_string "admin@vip.local".

(** [password_hash] is what [generate_password_hash] returns for
    [INITIAL_ADMIN_PASSWORD]. *)
Definition init_db (password_hash : str) (db : Db) : Db :=
  if existsb (fun u => PyStr.eqb (User.email u) INITIAL_ADMIN_EMAIL)
       (users db)
  then db
  else
    match insert_user INITIAL_ADMIN_EMAIL password_hash true None db with
    | None => db
    | Some db' => db'
    end.

(** ** [seed_test_data.seed] *)

Definition seed (now_company now_first now_second : Z) (db : Db) : Db :=
  let db := set_records db [] in
  let db := set_companies db [] in
  (* [description] and [group] take the column default, the empty string *)
  let company_id := next_rowid (map Company.id (companies db)) in
  let db :=
    insert_company (PyStr.of_string "Test Company") None None None None
      now_company db in
  let first :=
    Record_.mk (next_rowid (map Record_.id (records db))) company_id
      (PyStr.of_string "First Record") (Some []) (Some []) now_first in
  let db := set_records db (records db ++ [first]) in
  let second :=
    Record_.mk (next_rowid (map Record_.id (records db))) company_id
      (PyStr.of_string "Second Record") (Some []) (Some []) now_second in
  set_records db (records db ++ [second]).

(** ** The operations of the program *)

Inductive Op :=
| OpInitDb (password_hash : str)
| OpSeed (now_company now_first now_second : Z)
| OpCreateCompany (ss : Session)
    (name street house_number postal_code city : option str) (now : Z)
| OpCreateUser (ss : Session) (email : str) (password : option str)
    (company_id : IntField) (is_superadmin : option str)
    (password_hash : str)
| OpCreateRecord (ss : Session) (name description group : option str)
    (now : Z)
| OpCreateRelation (ss : Session) (a_id b_id : IntField) (now : Z)
| OpDeleteRelation (ss : Session) (rel_id : IntField)
| OpApiGraph (ss : Session) (company_id : IntField) (now_ts : Z).

Definition exec (op : Op) (db : Db) : Db :=
  match op with
  | OpInitDb h => init_db h db
  | OpSeed t0 t1 t2 => seed t0 t1 t2 db
  | OpCreateCompany ss n s h p c now =>
      snd (create_company ss n s h p c now db)
  | OpCreateUser ss e p c s h => snd (create_user ss e p c s h db)
  | OpCreateRecord ss n d g now => snd (create_record ss n d g now db)
  | OpCreateRelation ss x y now => snd (create_relation ss x y now db)
  | OpDeleteRelation ss r => snd (delete_relation ss r db)
  | OpApiGraph ss c t => snd (api_graph ss c t db)
  end.

(** The databases the program can produce from freshly created tables. *)
Inductive reachable : Db -> Prop :=
| reachable_empty : reachable empty_db
| reachable_exec op db : reachable db -> reachable (exec op db).

Definition run (ops : list Op) (db : Db) : Db :=
  fold_left (fun d op => exec op d) ops db.

(** ** Invariants *)

(** The canonical form of the stored relations. *)
Definition canonical (db : Db) : Prop :=
  Forall (fun r => RecordRelation.a_id r < RecordRelation.b_id r)
    (relations db).

Definition ascending (ids : list Z) : Prop := StronglySorted Z.lt ids.

(** Primary keys: every table holds its rows by ascending id. *)
Definition keyed (db : Db) : Prop :=
  ascending (map Company.id (companies db))
  /\ ascending (map User.id (users db))
  /\ ascending (map Record_.id (records db))
  /\ ascending (map RecordRelation.id (relations db)).

(** ** Vocabulary of the specification *)

(** A company user: a logged-in session whose user row is no super admin
    and carries the company id [t]. *)
Definition company_user (ss : Session) (t : Z) (db : Db) : Prop :=
  exists u, current_user ss db = Some u
            /\ User.is_superadmin u = false
            /\ User.company_id u = Some t
            /\ t <> 0.

Definition owns (t id : Z) (db : Db) : Prop :=
  exists r, In r (records db)
            /\ Record_.id r = id /\ Record_.company_id r = t.

(** The relation joins the two records, in either orientation. *)
Definition joins (x y : Z) (r : RecordRelation.t) : bool :=
  (RecordRelation.a_id r =? x) && (RecordRelation.b_id r =? y)
  || (RecordRelation.a_id r =? y) && (RecordRelation.b_id r =? x).

(** The outcomes the specification names, as the responses that carry
    them: a flashed message and the redirect to the records view. *)
Definition created := Redirect (Some RelationCreated) ep_records.
Definition alreadyExists := Redirect (Some RelationExists) ep_records.
Definition SelfRelationError := Redirect (Some SelfRelation) ep_records.
Definition InvalidEndpointsError :=
  Redirect (Some InvalidRecordIds) ep_records.
Definition ValidationError := Redirect (Some NameRequired) ep_records.
Definition deleted := Redirect (Some RelationDeleted) ep_records.
Definition notFound := Redirect (Some RelationNotFound) ep_records.
Definition NotCompanyUserError :=
  Redirect (Some ActAsCompanyUser) ep_records.

(** [listRelations]: the relation query of the [records] view. *)
Definition list_relations (company_id : option Z) (db : Db)
    : list RecordRelation.t :=
  filter (fun r => eq_col (RecordRelation.company_id r) company_id)
    (relations db).

(** The number of rows of [record] with id [x] owned by company [t]. *)
Definition count_owned (t x : Z) (db : Db) : nat :=
  length (filter (fun r => (Record_.company_id r =? t)
                           && (Record_.id r =? x)) (records db)).

(** The records of one company, as [api_graph] queries them. *)
Definition tenant_records (company_id : option Z) (db : Db)
    : list Record_.t :=
  filter (fun r => eq_col (Record_.company_id r) company_id) (records db).

(** The response turns the request down: an error message, an error status
    or an exception. *)
Definition rejected (r : Response) : Prop :=
  match r with
  | Redirect (Some m) _ => category m = error
  | Redirect None _ => False
  | Json _ => False
  | JsonError400 => True
  | Raised _ => True
  end.

(** ** The end-to-end scenario

    On fresh tables the super admin creates the company T and a user of it;
    the user creates the records Alpha and Beta. *)

Module Scenario.

Definition admin : Session := mkSession (Some 1) true None.
Definition member : Session := mkSession (Some 2) false (Some 1).

Definition T : Z := 1.

Definition setup (h_admin h_member : str) (t_company t_alpha t_beta : Z)
    : list Op :=
  [ OpInitDb h_admin;
    OpCreateCompany admin (Some (PyStr.of_string "T")) None None None None
      t_company;
    OpCreateUser admin (PyStr.of_string "member@t.local")
      (Some (PyStr.of_string "secret")) (Parsed T) None h_member;
    OpCreateRecord member (Some (PyStr.of_string "Alpha")) None None
      t_alpha;
    OpCreateRecord member (Some (PyStr.of_string "Beta")) None None
      t_beta ].

Definition alpha : Node := mkNode 1 (PyStr.of_string "Alpha") [] [].
Definition beta : Node := mkNode 2 (PyStr.of_string "Beta") [] [].

(** The snapshot with the nodes newest first. *)
Definition newest_first (now_ts : Z) : Graph :=
  mkGraph [beta; alpha] [mkEdge 1 2] (Some T) now_ts.

(** The snapshot with the nodes in table order. *)
Definition table_order (now_ts : Z) : Graph :=
  mkGraph [alpha; beta] [mkEdge 1 2] (Some T) now_ts.

(** A store for examples: the scenario at fixed clock readings. *)
Definition store : Db :=
  run (setup (PyStr.of_string "h1") (PyStr.of_string "h2") 10 20 21)
    empty_db.

(** The same store with a second company and a record of it. *)
Definition two_tenants : Db :=
  run [ OpCreateCompany admin (Some (PyStr.of_string "U")) None None None
          None 30;
        OpCreateUser admin (PyStr.of_string "member@u.local")
          (Some (PyStr.of_string "secret")) (Parsed 2) None
          (PyStr.of_string "h3");
        OpCreateRecord (mkSession (Some 3) false (Some 2))
          (Some (PyStr.of_string "Gamma")) None None 31;
        OpCreateRelation member (Parsed 2) (Parsed 1) 32 ]
    store.

Definition outsider : Session := mkSession (Some 3) false (Some 2).

End Scenario.

From Stdlib Require Import Permutation.

(** ** Page routes

    The routes that render a page read the database and leave it as it
    is. *)

Inductive Notice :=
| Told (m : Flash)
| LoginFailed          (* "Login fehlgeschlagen." *)
| SuperAdminUseLive    (* "Als Super-Admin bitte eine Firma auswählen und
                          /live?company_id=<id> nutzen." *)
| CompanyIdRequired    (* "Bitte company_id als Query-Parameter angeben,
                          z.B. /live?company_id=1" *)
| CompanyNotFound.     (* "Firma nicht gefunden." *)

Inductive Page :=
| Goto (flashed : option Notice) (target : Endpoint)
| LoginPage (flashed : option Notice)
| AdminPage (companies : list Company.t) (users : list User.t)
| RecordsPage (company : option Company.t) (records : list Record_.t)
    (relations : list RecordRelation.t)
| LivePage (company : Company.t)
| Crashed (e : Exn).

Definition View := Db -> Page.

(** [login_required] around a page route. *)
Definition login_required_page (ss : Session) (fn : View) : View :=
  fun db =>
    if negb (truthy (user_id ss)) then Goto None ep_login
    else fn db.

(** [superadmin_required] around a page route. *)
Definition superadmin_required_page (ss : Session) (fn : View) : View :=
  fun db =>
    if negb (truthy (user_id ss)) || negb (is_superadmin ss)
    then Goto (Some (Told NotAuthorized)) ep_index
    else fn db.

(** [query.order_by(key.desc())]: rows by descending key; rows with equal
    keys stay in table order. *)
Fixpoint insert_desc {A : Type} (key : A -> Z) (x : A) (l : list A)
    : list A :=
  match l with
  | [] => [x]
  | y :: rest =>
      if key y <=? key x then x :: l else y :: insert_desc key x rest
  end.

Definition order_by_desc {A : Type} (key : A -> Z) (l : list A) : list A :=
  fold_right (insert_desc key) [] l.

Definition index (ss : Session) : Page :=
  if truthy (user_id ss) then
    if is_superadmin ss then Goto None ep_admin
    else Goto None ep_records
  else Goto None ep_login.

Inductive Method := GET | POST.

(** [email] is the form's e-mail address after [.strip().lower()];
    [check_password_hash] is werkzeug's check of a password against a
    stored hash. *)
Definition login (check_password_hash : str -> str -> bool)
    (method : Method) (email : str) (form_password : option str)
    (ss : Session) (db : Db) : Page * Session :=
  match method with
  | POST =>
      let password := PyStr.or_empty form_password in
      let user :=
        hd_error (filter (fun u => PyStr.eqb (User.email u) email)
                    (users db)) in
      match user with
      | Some user =>
          if check_password_hash (User.password_hash user) password
          then (Goto None ep_index,
                mkSession (Some (User.id user)) (User.is_superadmin user)
                  (User.company_id user))
          else (LoginPage (Some LoginFailed), ss)
      | None => (LoginPage (Some LoginFailed), ss)
      end
  | GET => (LoginPage None, ss)
  end.

(** [session.clear()] *)
Definition logout (ss : Session) : Page * Session :=
  (Goto None ep_login, mkSession None false None).

Definition admin (ss : Session) : View :=
  superadmin_required_page ss (fun db =>
    AdminPage (order_by_desc Company.created_at (companies db))
      (order_by_desc User.id (users db))).

(** [db.query(Company).filter(Company.id == company_id).first()] *)
Definition find_company (company_id : option Z) (db : Db)
    : option Company.t :=
  hd_error (filter (fun c => eq_col (Company.id c) company_id)
              (companies db)).

(** The [records] view. *)
Definition records_view (ss : Session) : View :=
  login_required_page ss (fun db =>
    match session_user ss db with
    | inl e => Crashed e
    | inr None => Crashed AttributeError
    | inr (Some user) =>
        if User.is_superadmin user
        then Goto (Some SuperAdminUseLive) ep_admin
        else
          let company := find_company (User.company_id user) db in
          let recs :=
            order_by_desc Record_.created_at
              (filter (fun r => eq_col (Record_.company_id r)
                                  (User.company_id user))
                 (records db)) in
          let relations :=
            filter (fun r => eq_col (RecordRelation.company_id r)
                               (User.company_id user))
              (relations db) in
          RecordsPage company recs relations
    end).

Definition live (ss : Session) (arg_company_id : IntField) : View :=
  login_required_page ss (fun db =>
    match session_user ss db with
    | inl e => Crashed e
    | inr None => Crashed AttributeError
    | inr (Some user) =>
        let company_id := get_int arg_company_id in
        let chosen :=
          if User.is_superadmin user then
            if negb (truthy company_id) then None else Some company_id
          else Some (User.company_id user) in
        match chosen with
        | None => Goto (Some CompanyIdRequired) ep_admin
        | Some company_id =>
            if negb (match company_id with
                     | Some n => sqlite_integer db n
                     | None => true
                     end)
            then Crashed OverflowError
            else
              match find_company company_id db with
              | None => Goto (Some CompanyNotFound) ep_index
              | Some company => LivePage company
              end
        end
    end).

(** ** Further invariants of the tables *)

(** [UniqueConstraint("a_id", "b_id")] *)
Definition pairs_unique (db : Db) : Prop :=
  NoDup (map (fun r => (RecordRelation.a_id r, RecordRelation.b_id r))
           (relations db)).

(** [email = Column(String(255), unique=True)] *)
Definition emails_unique (db : Db) : Prop :=
  NoDup (map User.email (users db)).

(** Every rowid in use is at least 1. *)
Definition ids_positive (db : Db) : Prop :=
  Forall (fun i => 1 <= i) (map Company.id (companies db))
  /\ Forall (fun i => 1 <= i) (map User.id (users db))
  /\ Forall (fun i => 1 <= i) (map Record_.id (records db))
  /\ Forall (fun i => 1 <= i) (map RecordRelation.id (relations db)).

(** A user row is a super admin exactly when it has no company id. *)
Definition users_shaped (db : Db) : Prop :=
  Forall (fun u => User.is_superadmin u = true <-> User.company_id u = None)
    (users db).

(** A stored name: not empty, no whitespace at either end. *)
Definition stripped_name (s : str) : Prop :=
  s <> []
  /\ (forall c, hd_error s = Some c -> PyStr.isspace c = false)
  /\ (forall c, hd_error (rev s) = Some c -> PyStr.isspace c = false).

Definition names_stripped (db : Db) : Prop :=
  Forall (fun c => stripped_name (Company.name c)) (companies db)
  /\ Forall (fun r => stripped_name (Record_.name r)
                      /\ Record_.company_id r <> 0
                      /\ Record_.description r <> None
                      /\ Record_.group r <> None)
       (records db).

(** Both ends of every relation are records of the relation's company. *)
Definition endpoints_owned (db : Db) : Prop :=
  Forall (fun r => owns (RecordRelation.company_id r)
                     (RecordRelation.a_id r) db
                   /\ owns (RecordRelation.company_id r)
                        (RecordRelation.b_id r) db)
    (relations db).

Definition is_seed (op : Op) : bool :=
  match op with OpSeed _ _ _ => true | _ => false end.

(** A store some relation row matches the pair of, for any company. *)
Definition pair_stored (lo hi : Z) (db : Db) : Prop :=
  exists r, In r (relations db)
            /\ RecordRelation.a_id r = lo /\ RecordRelation.b_id r = hi.

(** The same, for a row of company [t]. *)
Definition pair_stored_for (t lo hi : Z) (db : Db) : Prop :=
  exists r, In r (relations db)
            /\ RecordRelation.a_id r = lo /\ RecordRelation.b_id r = hi
            /\ RecordRelation.company_id r = t.

(** What a request of another company must leave alone: the companies, the
    users, and the records and relations of company [A]. *)
Definition untouched (A : Z) (db db' : Db) : Prop :=
  companies db' = companies db
  /\ users db' = users db
  /\ tenant_records (Some A) db' = tenant_records (Some A) db
  /\ list_relations (Some A) db' = list_relations (Some A) db.

(** ** Example stores for the page routes and the seed script *)

Module Examples.

(** Two companies; a user of company 2 relates its records 1 and 2; the
    seed script then replaces companies and records, so that records 1 and
    2 belong to the new company 1 while the old relation remains. *)
Definition stale : Db :=
  run [ OpInitDb (PyStr.of_string "h1");
        OpCreateCompany Scenario.admin (Some (PyStr.of_string "T")) None
          None None None 10;
        OpCreateCompany Scenario.admin (Some (PyStr.of_string "U")) None
          None None None 11;
        OpCreateUser Scenario.admin (PyStr.of_string "member@t.local")
          (Some (PyStr.of_string "secret")) (Parsed 1) None
          (PyStr.of_string "h2");
        OpCreateUser Scenario.admin (PyStr.of_string "member@u.local")
          (Some (PyStr.of_string "secret")) (Parsed 2) None
          (PyStr.of_string "h3");
        OpCreateRecord Scenario.outsider (Some (PyStr.of_string "Gamma"))
          None None 20;
        OpCreateRecord Scenario.outsider (Some (PyStr.of_string "Delta"))
          None None 21;
        OpCreateRelation Scenario.outsider (Parsed 1) (Parsed 2) 22;
        OpSeed 30 31 32 ]
    empty_db.

(** A password check for examples: the hash is the password itself. *)
Definition plain_check (hash password : str) : bool :=
  PyStr.eqb hash password.

End Examples.

(** * Proofs *)

Ltac break_if :=
  match goal with
  | |- context [if ?c then _ else _] => destruct c eqn:?
  | |- context [match ?c with _ => _ end] => destruct c eqn:?
  end.

Ltac bool_hyps :=
  repeat match goal with
  | H : _ && _ = true |- _ => apply andb_true_iff in H; destruct H
  | H : _ || _ = false |- _ => apply orb_false_iff in H; destruct H
  | H : negb _ = true |- _ => apply negb_true_iff in H
  | H : negb _ = false |- _ => apply negb_false_iff in H
  | H : (_ =? _) = true |- _ => apply Z.eqb_eq in H
  | H : (_ =? _) = false |- _ => apply Z.eqb_neq in H
  | H : (_ <? _) = true |- _ => apply Z.ltb_lt in H
  | H : (_ <? _) = false |- _ => apply Z.ltb_ge in H
  end.

(** ** Strings *)

Module PyStrFacts.
Import PyStr.

Lemma lstrip_head c r s : lstrip s = c :: r -> isspace c = false.
Proof.
  induction s as [|d s IH]; simpl; [discriminate|].
  destruct (isspace d) eqn:E; auto.
  intros [= <- _]. exact E.
Qed.

Lemma lstrip_suffix s : exists p, s = p ++ lstrip s /\ forallb isspace p = true.
Proof.
  induction s as [|d s [p [Hp Hs]]]; simpl.
  - exists []. auto.
  - destruct (isspace d) eqn:E.
    + exists (d :: p). simpl. rewrite E, Hs. split; [f_equal; exact Hp | reflexivity].
    + exists []. auto.
Qed.

Lemma lstrip_nil s : lstrip s = [] <-> forallb isspace s = true.
Proof.
  induction s as [|d s IH]; simpl; [tauto|].
  destruct (isspace d); simpl; [exact IH|].
  split; discriminate.
Qed.

Lemma forallb_rev (f : N -> bool) s : forallb f (rev s) = forallb f s.
Proof.
  induction s as [|d s IH]; simpl; [reflexivity|].
  rewrite forallb_app, IH. simpl. rewrite andb_true_r. apply andb_comm.
Qed.

(** Stripping leaves nothing exactly when the string is all whitespace. *)
Lemma strip_nil s : strip s = [] <-> forallb isspace s = true.
Proof.
  unfold strip, rstrip. split.
  - intros H. apply (f_equal (@rev N)) in H. rewrite rev_involutive in H.
    simpl in H. apply lstrip_nil in H. rewrite forallb_rev in H.
    destruct (lstrip s) as [|c r] eqn:E; [apply lstrip_nil; exact E|].
    apply lstrip_head in E. simpl in H. rewrite E in H. discriminate.
  - intros H. apply lstrip_nil in H. rewrite H. reflexivity.
Qed.

Lemma is_empty_nil s : is_empty s = true <-> s = [].
Proof. destruct s; simpl; split; congruence. Qed.

(** The stripped string neither starts nor ends with whitespace. *)
Lemma strip_ends s c :
  (hd_error (strip s) = Some c \/ hd_error (rev (strip s)) = Some c) ->
  isspace c = false.
Proof.
  unfold strip, rstrip. rewrite rev_involutive. intros [H|H].
  - destruct (lstrip_suffix (rev (lstrip s))) as [p [Hp Hs]].
    apply (f_equal (@rev N)) in Hp. rewrite rev_involutive, rev_app_distr in Hp.
    destruct (rev (lstrip (rev (lstrip s)))) as [|d r] eqn:E; [discriminate|].
    injection H as ->. simpl in Hp.
    destruct (lstrip s) as [|e r'] eqn:E'; [discriminate|].
    injection Hp as <- _. eapply lstrip_head; eauto.
  - destruct (lstrip (rev (lstrip s))) as [|d r] eqn:E; [discriminate|].
    injection H as ->. eapply lstrip_head; eauto.
Qed.

End PyStrFacts.

(** ** Tables keyed by ascending id *)

Section Keys.
Context {A : Type} (key : A -> Z).

Lemma fold_max_ge (l : list Z) (i : Z) :
  i <= fold_left Z.max l i /\ Forall (fun j => j <= fold_left Z.max l i) l.
Proof.
  revert i. induction l as [|j l IH]; intros i; simpl.
  - split; [lia | constructor].
  - destruct (IH (Z.max i j)) as [H1 H2]. split; [lia|].
    constructor; [lia | exact H2].
Qed.

Lemma next_rowid_above (ids : list Z) :
  Forall (fun j => j < next_rowid ids) ids.
Proof.
  destruct ids as [|i l]; [constructor|]. unfold next_rowid.
  destruct (fold_max_ge l i) as [H1 H2].
  constructor; [lia|].
  eapply Forall_impl; [|exact H2]. intros j Hj. cbv beta in *. lia.
Qed.

Lemma ascending_snoc (ids : list Z) (n : Z) :
  ascending ids -> Forall (fun j => j < n) ids -> ascending (ids ++ [n]).
Proof.
  unfold ascending. induction 1 as [|i l Hs IH Hi]; intros Hn; simpl.
  - repeat constructor.
  - inversion Hn; subst. constructor; [auto|].
    apply Forall_app. split; [exact Hi | repeat constructor; assumption].
Qed.

Lemma ascending_insert (l : list A) (x : A) :
  key x = next_rowid (map key l) ->
  ascending (map key l) -> ascending (map key (l ++ [x])).
Proof.
  intros Hx Hl. rewrite map_app. simpl. rewrite Hx.
  apply ascending_snoc; [exact Hl | apply next_rowid_above].
Qed.

Lemma ascending_filter (p : A -> bool) (l : list A) :
  ascending (map key l) -> ascending (map key (filter p l)).
Proof.
  unfold ascending. induction l as [|x l IH]; simpl; intros H; [constructor|].
  inversion H as [|? ? Hs Hx]; subst.
  destruct (p x); simpl; [constructor|]; auto.
  rewrite Forall_forall in *. intros k Hk. apply Hx.
  apply in_map_iff in Hk. destruct Hk as [y [<- Hy]].
  apply filter_In in Hy. apply in_map. tauto.
Qed.

Lemma filter_above (p : A -> bool) (k : Z) (l : list A) :
  Forall (fun j => k < j) (map key l) ->
  (forall x, p x = true -> key x = k) ->
  filter p l = [].
Proof.
  intros Hl Hp. induction l as [|y l IH]; simpl; [reflexivity|].
  inversion Hl; subst.
  destruct (p y) eqn:E; [apply Hp in E; lia | auto].
Qed.

(** A primary key selects at most one row. *)
Lemma key_selects_one (p : A -> bool) (k : Z) (l : list A) :
  ascending (map key l) ->
  (forall x, p x = true -> key x = k) ->
  (length (filter p l) <= 1)%nat.
Proof.
  unfold ascending. intros Hl Hp.
  induction l as [|x l IH]; simpl; [lia|].
  inversion Hl as [|? ? Hs Hx]; subst.
  destruct (p x) eqn:E; [|auto].
  apply Hp in E. subst k.
  rewrite (filter_above p (key x) l Hx Hp). simpl. lia.
Qed.

Lemma key_unique (l : list A) (x y : A) :
  ascending (map key l) -> In x l -> In y l -> key x = key y -> x = y.
Proof.
  unfold ascending. induction l as [|z l IH]; simpl; intros Hl Hx Hy E; [tauto|].
  inversion Hl as [|? ? Hs Hz]; subst. rewrite Forall_forall in Hz.
  destruct Hx as [->|Hx], Hy as [->|Hy]; auto.
  - specialize (Hz (key y) (in_map key _ _ Hy)). lia.
  - specialize (Hz (key x) (in_map key _ _ Hx)). lia.
Qed.

End Keys.

(** ** Queries *)

Section Queries.
Context {A : Type}.

Lemma length_filter_orb (f g : A -> bool) (l : list A) :
  (forall x, f x = true -> g x = false) ->
  length (filter (fun x => f x || g x) l)
  = (length (filter f l) + length (filter g l))%nat.
Proof.
  intros D. induction l as [|x l IH]; simpl; [reflexivity|].
  destruct (f x) eqn:Ef; simpl.
  - rewrite (D _ Ef). simpl. rewrite IH. reflexivity.
  - destruct (g x); simpl; rewrite IH; lia.
Qed.

Lemma filter_nil_iff (p : A -> bool) (l : list A) :
  filter p l = [] <-> (forall x, In x l -> p x = false).
Proof.
  induction l as [|x l IH]; simpl; [tauto|].
  destruct (p x) eqn:E; split.
  - discriminate.
  - intros H. specialize (H x (or_introl eq_refl)). congruence.
  - intros H y [<-|Hy]; [exact E | apply IH; auto].
  - intros H. apply IH. auto.
Qed.

Lemma filter_some (p : A -> bool) (l : list A) (x : A) :
  In x l -> p x = true -> (1 <= length (filter p l))%nat.
Proof.
  intros Hx Hp. assert (In x (filter p l)) as H by (apply filter_In; auto).
  destruct (filter p l); [destruct H | simpl; lia].
Qed.

Lemma hd_error_filter (p : A -> bool) (l : list A) (x : A) :
  hd_error (filter p l) = Some x -> In x l /\ p x = true.
Proof.
  intros H. apply filter_In.
  destruct (filter p l) as [|y r]; [discriminate|].
  injection H as ->. left. reflexivity.
Qed.

Lemma hd_error_filter_none (p : A -> bool) (l : list A) :
  hd_error (filter p l) = None <-> (forall x, In x l -> p x = false).
Proof.
  rewrite <- filter_nil_iff. destruct (filter p l); simpl; split; congruence.
Qed.

End Queries.

(** ** SQLite integers *)

Lemma stored_sqlite_integer db n :
  In n (stored_integers db) -> sqlite_integer db n = true.
Proof.
  intros H. unfold sqlite_integer. apply orb_true_iff. right.
  apply existsb_exists. exists n. split; [exact H | apply Z.eqb_refl].
Qed.

Lemma int64_sqlite_integer db n : int64 n = true -> sqlite_integer db n = true.
Proof. intros H. unfold sqlite_integer. rewrite H. reflexivity. Qed.

Lemma user_id_stored db u :
  In u (users db) -> sqlite_integer db (User.id u) = true.
Proof.
  intros H. apply stored_sqlite_integer. unfold stored_integers.
  apply in_or_app. right. apply in_or_app. left. apply in_map, H.
Qed.

Lemma user_company_stored db u c :
  In u (users db) -> User.company_id u = Some c ->
  sqlite_integer db c = true.
Proof.
  intros H Hc. apply stored_sqlite_integer. unfold stored_integers.
  do 2 (apply in_or_app; right). apply in_or_app. left.
  apply in_flat_map. exists u. split; [exact H|]. rewrite Hc. left.
  reflexivity.
Qed.

Lemma record_id_stored db r :
  In r (records db) -> sqlite_integer db (Record_.id r) = true.
Proof.
  intros H. apply stored_sqlite_integer. unfold stored_integers.
  do 3 (apply in_or_app; right). apply in_or_app. left. apply in_map, H.
Qed.

Lemma relation_id_stored db r :
  In r (relations db) -> sqlite_integer db (RecordRelation.id r) = true.
Proof.
  intros H. apply stored_sqlite_integer. unfold stored_integers.
  do 5 (apply in_or_app; right). apply in_or_app. left. apply in_map, H.
Qed.

Lemma owned_sqlite_integer t x db : owns t x db -> sqlite_integer db x = true.
Proof. intros (r & Hr & <- & _). apply record_id_stored, Hr. Qed.

(** On a store that holds 64-bit integers only, the integers SQLite holds
    are those of 64 bits. *)
Lemma sqlite_integer_int64 db n :
  Forall (fun i => int64 i = true) (stored_integers db) ->
  sqlite_integer db n = int64 n.
Proof.
  intros H. unfold sqlite_integer. destruct (int64 n) eqn:E; [reflexivity|].
  simpl. destruct (existsb _ _) eqn:Ex; [|reflexivity].
  apply existsb_exists in Ex. destruct Ex as (i & Hi & Ei).
  apply Z.eqb_eq in Ei. subst i. rewrite Forall_forall in H.
  rewrite (H n Hi) in E. discriminate.
Qed.

(** ** Sessions and users *)

Lemma current_user_in ss db u :
  current_user ss db = Some u ->
  In u (users db) /\ user_id ss = Some (User.id u) /\ User.id u <> 0.
Proof.
  unfold current_user. destruct (user_id ss) as [uid|]; [|discriminate].
  destruct (uid =? 0) eqn:E; [discriminate|]. intros H.
  apply hd_error_filter in H. destruct H as [Hin Hid].
  apply Z.eqb_eq in Hid. apply Z.eqb_neq in E. subst uid. auto.
Qed.

Lemma session_user_some ss db u :
  current_user ss db = Some u -> session_user ss db = inr (Some u).
Proof.
  intros H. destruct (current_user_in ss db u H) as (Hin & Hid & Hne).
  unfold session_user. rewrite <- H, Hid.
  apply Z.eqb_neq in Hne. rewrite Hne, (user_id_stored db u Hin).
  reflexivity.
Qed.

Lemma session_user_raises ss db e :
  session_user ss db = inl e -> e = OverflowError.
Proof.
  unfold session_user. destruct (user_id ss) as [uid|]; [|discriminate].
  destruct (uid =? 0); [discriminate|].
  destruct (sqlite_integer db uid); [discriminate|].
  intros [= <-]. reflexivity.
Qed.

Lemma session_user_none ss db :
  session_user ss db = inr None -> current_user ss db = None.
Proof.
  unfold session_user, current_user.
  destruct (user_id ss) as [uid|]; [|reflexivity].
  destruct (uid =? 0); [reflexivity|].
  destruct (sqlite_integer db uid); [|discriminate].
  intros [= H]. exact H.
Qed.

Lemma current_user_logged_in ss db u :
  current_user ss db = Some u -> truthy (user_id ss) = true.
Proof.
  unfold current_user, truthy. destruct (user_id ss) as [uid|]; [|discriminate].
  destruct (uid =? 0); [discriminate | reflexivity].
Qed.

Lemma company_user_logged_in ss t db :
  company_user ss t db -> truthy (user_id ss) = true.
Proof. intros [u [H _]]. eapply current_user_logged_in; eauto. Qed.

Lemma truthy_some t : t <> 0 -> truthy (Some t) = true.
Proof. intros H. simpl. apply negb_true_iff, Z.eqb_neq, H. Qed.

(** ** [normalized_pair] *)

Lemma normalized_pair_min_max x y :
  normalized_pair x y = (Z.min x y, Z.max x y).
Proof.
  unfold normalized_pair. destruct (x <? y) eqn:E; bool_hyps; f_equal; lia.
Qed.

(** ** [create_relation] for a company user *)

Lemma count_records_split t x y db :
  x <> y ->
  count_records (Some t) [x; y] db
  = Nat.add (count_owned t x db) (count_owned t y db).
Proof.
  intros Hxy. unfold count_records, count_owned.
  rewrite <- length_filter_orb.
  - f_equal. apply filter_ext. intros r. simpl.
    destruct (Record_.company_id r =? t), (Record_.id r =? x),
      (Record_.id r =? y); reflexivity.
  - intros r H. bool_hyps. apply andb_false_iff. right.
    apply Z.eqb_neq. congruence.
Qed.

Lemma count_owned_le t x db :
  ascending (map Record_.id (records db)) -> Nat.le (count_owned t x db) 1.
Proof.
  intros H. apply (key_selects_one Record_.id _ x); [exact H|].
  intros r Hr. bool_hyps. assumption.
Qed.

Lemma count_owned_pos t x db :
  owns t x db <-> Nat.le 1 (count_owned t x db).
Proof.
  unfold count_owned. split.
  - intros [r [Hr [Hi Hc]]]. apply (filter_some _ _ r Hr).
    rewrite Hi, Hc, !Z.eqb_refl. reflexivity.
  - intros H.
    destruct (filter _ (records db)) as [|r l] eqn:E; [simpl in H; lia|].
    assert (In r (r :: l)) as Hr by (left; reflexivity).
    rewrite <- E in Hr. apply filter_In in Hr. destruct Hr as [Hr Hp].
    bool_hyps. exists r. auto.
Qed.

(** With primary keys, the count is 2 exactly when both records belong to
    the company. *)
Lemma count_records_two t x y db :
  keyed db -> x <> y ->
  count_records (Some t) [x; y] db = 2%nat <-> owns t x db /\ owns t y db.
Proof.
  intros (_ & _ & Hk & _) Hxy. rewrite (count_records_split t x y db Hxy).
  pose proof (count_owned_le t x db Hk). pose proof (count_owned_le t y db Hk).
  rewrite !count_owned_pos. unfold Nat.le in *. lia.
Qed.

Lemma create_relation_company_user ss t db x y now :
  company_user ss t db -> x <> y ->
  create_relation ss (Parsed x) (Parsed y) now db
  = if negb (sqlite_integer db x && sqlite_integer db y)
    then (Raised OverflowError, db)
    else if negb (Nat.eqb (count_records (Some t) [x; y] db) 2)
    then (InvalidEndpointsError, db)
    else
      match find_relation (Z.min x y) (Z.max x y) (Some t) db with
      | Some _ => (alreadyExists, db)
      | None =>
          match insert_relation (Z.min x y) (Z.max x y) (Some t) now db with
          | None => (Raised IntegrityError, db)
          | Some db' => (created, db')
          end
      end.
Proof.
  intros Hu Hxy. pose proof (company_user_logged_in _ _ _ Hu) as Hl.
  destruct Hu as (u & Hu & Hs & Hc & Ht).
  unfold create_relation, login_required. rewrite Hl. cbn [negb py_int].
  apply Z.eqb_neq in Hxy.
  rewrite Hxy, (session_user_some _ _ _ Hu), Hs, Hc, (truthy_some t Ht).
  cbn [negb orb]. rewrite normalized_pair_min_max. reflexivity.
Qed.

Lemma create_relation_owned ss t db x y now :
  company_user ss t db -> keyed db -> x <> y ->
  owns t x db -> owns t y db ->
  create_relation ss (Parsed x) (Parsed y) now db
  = match find_relation (Z.min x y) (Z.max x y) (Some t) db with
    | Some _ => (alreadyExists, db)
    | None =>
        match insert_relation (Z.min x y) (Z.max x y) (Some t) now db with
        | None => (Raised IntegrityError, db)
        | Some db' => (created, db')
        end
    end.
Proof.
  intros Hu Hk Hxy Hx Hy.
  rewrite (create_relation_company_user ss t db x y now Hu Hxy).
  rewrite (owned_sqlite_integer t x db Hx), (owned_sqlite_integer t y db Hy).
  rewrite (proj2 (count_records_two t x y db Hk Hxy) (conj Hx Hy)).
  reflexivity.
Qed.

Lemma joins_sym x y r : joins x y r = joins y x r.
Proof. unfold joins. apply orb_comm. Qed.

Lemma joins_canonical x y r :
  RecordRelation.a_id r = Z.min x y -> RecordRelation.b_id r = Z.max x y ->
  joins x y r = true.
Proof.
  intros Ha Hb. unfold joins. rewrite Ha, Hb.
  destruct (Z.le_ge_cases x y).
  - rewrite Z.min_l, Z.max_r, !Z.eqb_refl by assumption. reflexivity.
  - rewrite Z.min_r, Z.max_l, !Z.eqb_refl by assumption. apply orb_true_r.
Qed.

(** Inserting the canonical pair of two records nothing joins yet. *)
Lemma insert_relation_fresh x y t now db :
  (forall r, In r (relations db) -> joins x y r = false) ->
  insert_relation (Z.min x y) (Z.max x y) (Some t) now db
  = Some (set_relations db
            (relations db
             ++ [RecordRelation.mk
                   (next_rowid (map RecordRelation.id (relations db)))
                   (Z.min x y) (Z.max x y) t now])).
Proof.
  intros H. unfold insert_relation.
  destruct (existsb _ (relations db)) eqn:E; [|reflexivity].
  apply existsb_exists in E. destruct E as [r [Hr E]]. bool_hyps.
  specialize (H r Hr). rewrite (joins_canonical x y r) in H; auto.
  discriminate.
Qed.

Lemma find_relation_fresh x y c db :
  (forall r, In r (relations db) -> joins x y r = false) ->
  find_relation (Z.min x y) (Z.max x y) c db = None.
Proof.
  intros H. unfold find_relation.
  apply (proj2 (hd_error_filter_none _ _)). intros r Hr.
  destruct (_ && _) eqn:E; [|reflexivity]. bool_hyps.
  rewrite <- (H r Hr). symmetry. apply joins_canonical; assumption.
Qed.

Lemma find_relation_inserted lo hi t now db l :
  relations db = l ++ [RecordRelation.mk (next_rowid (map RecordRelation.id l))
                         lo hi t now] ->
  find_relation lo hi (Some t) db <> None.
Proof.
  intros E H. unfold find_relation in H.
  rewrite hd_error_filter_none in H.
  specialize (H (RecordRelation.mk (next_rowid (map RecordRelation.id l))
                   lo hi t now)).
  rewrite E in H. simpl in H. rewrite !Z.eqb_refl in H.
  discriminate H. apply in_or_app. right. left. reflexivity.
Qed.

Lemma filter_joins_fresh x y l rel :
  (forall r, In r l -> joins x y r = false) -> joins x y rel = true ->
  filter (joins x y) (l ++ [rel]) = [rel].
Proof.
  intros H Hrel. rewrite filter_app. simpl. rewrite Hrel.
  replace (filter (joins x y) l) with (@nil RecordRelation.t); [reflexivity|].
  symmetry. apply filter_nil_iff. exact H.
Qed.

Lemma insert_relation_some x y c now db db' :
  insert_relation x y c now db = Some db' ->
  exists cid,
    c = Some cid
    /\ db' = set_relations db
               (relations db
                ++ [RecordRelation.mk
                      (next_rowid (map RecordRelation.id (relations db)))
                      x y cid now]).
Proof.
  unfold insert_relation. destruct c as [cid|]; [|discriminate].
  destruct (existsb _ _); [discriminate|].
  intros [= <-]. exists cid. split; reflexivity.
Qed.

Lemma insert_relation_none x y c now now' db :
  insert_relation x y c now db = None -> insert_relation x y c now' db = None.
Proof.
  unfold insert_relation. destruct c; [|reflexivity].
  destruct (existsb _ _); [reflexivity | discriminate].
Qed.

Lemma stored_integers_more db rel n :
  In n (stored_integers db) ->
  In n (stored_integers (set_relations db (relations db ++ [rel]))).
Proof.
  unfold stored_integers. simpl. rewrite !map_app, !in_app_iff. tauto.
Qed.

Lemma sqlite_integer_more db rel n :
  sqlite_integer db n = true ->
  sqlite_integer (set_relations db (relations db ++ [rel])) n = true.
Proof.
  unfold sqlite_integer. rewrite !orb_true_iff, !existsb_exists.
  intros [H|(i & Hi & E)]; [left; exact H|].
  right. exists i. split; [apply stored_integers_more, Hi | exact E].
Qed.

Lemma session_user_more ss db rel v :
  session_user ss db = inr v ->
  session_user ss (set_relations db (relations db ++ [rel])) = inr v.
Proof.
  unfold session_user. destruct (user_id ss) as [uid|]; [|auto].
  destruct (uid =? 0); [auto|].
  destruct (sqlite_integer db uid) eqn:E; [|discriminate].
  rewrite (sqlite_integer_more db rel uid E). auto.
Qed.

(** A second identical request never changes the store again, and it
    answers [alreadyExists] when the first one answered [created]. *)
Lemma create_relation_twice ss fa fb now now' db :
  let db1 := snd (create_relation ss fa fb now db) in
  snd (create_relation ss fa fb now' db1) = db1
  /\ (fst (create_relation ss fa fb now db) = created ->
      fst (create_relation ss fa fb now' db1) = alreadyExists).
Proof.
  unfold create_relation, login_required.
  destruct (negb (truthy (user_id ss))); [split; [reflexivity | discriminate]|].
  destruct (py_int fa) as [e|x]; [split; [reflexivity | discriminate]|].
  destruct (py_int fb) as [e|y]; [split; [reflexivity | discriminate]|].
  destruct (x =? y) eqn:Hxy; [split; [reflexivity | discriminate]|].
  destruct (session_user ss db) as [e|[u|]] eqn:Hu;
    [cbn [fst snd]; rewrite Hu; split; [reflexivity | discriminate]| |
     cbn [fst snd]; rewrite Hu; split; [reflexivity | discriminate]].
  destruct (User.is_superadmin u || negb (truthy (User.company_id u))) eqn:Hg;
    [cbn [fst snd]; rewrite Hu, Hg; split; [reflexivity | discriminate]|].
  destruct (negb (sqlite_integer db x && sqlite_integer db y)) eqn:Hq;
    [cbn [fst snd]; rewrite Hu, Hg, Hq; split; [reflexivity | discriminate]|].
  destruct (negb (Nat.eqb (count_records (User.company_id u) [x; y] db) 2))
    eqn:Hc;
    [cbn [fst snd]; rewrite Hu, Hg, Hq, Hc; split;
     [reflexivity | discriminate]|].
  destruct (normalized_pair x y) as [lo hi] eqn:Hn.
  destruct (find_relation lo hi (User.company_id u) db) eqn:Hf;
    [cbn [fst snd]; rewrite Hu, Hg, Hq, Hc, Hf; split;
     [reflexivity | discriminate]|].
  destruct (insert_relation lo hi (User.company_id u) now db) as [db'|] eqn:Hi;
    [|cbn [fst snd];
      rewrite Hu, Hg, Hq, Hc, Hf, (insert_relation_none _ _ _ _ now' _ Hi);
      split; [reflexivity | discriminate]].
  apply insert_relation_some in Hi. destruct Hi as (cid & Ecid & ->).
  cbn [fst snd].
  rewrite (session_user_more ss db _ _ Hu), Hg.
  apply negb_false_iff, andb_true_iff in Hq. destruct Hq as [Hqx Hqy].
  rewrite (sqlite_integer_more db _ x Hqx), (sqlite_integer_more db _ y Hqy).
  cbn [andb negb].
  change (count_records (User.company_id u) [x; y] (set_relations db _))
    with (count_records (User.company_id u) [x; y] db).
  rewrite Hc, Ecid.
  destruct (find_relation lo hi (Some cid) (set_relations db _)) eqn:E.
  - split; reflexivity.
  - exfalso. revert E. eapply find_relation_inserted. reflexivity.
Qed.

(** C1: [createRelation] is idempotent. A second identical request never
    changes the store again and answers [alreadyExists] after [created].
    On a store with primary keys, for a company user of tenant [t] and two
    distinct records [x], [y] of [t] that no relation joins yet, the first
    call answers [created] and the second [alreadyExists] without touching
    the store, in either argument order and with the same store; afterwards
    exactly one relation joins the pair, in the whole table and in
    [listRelations(t)]. *)
Theorem create_relation_idempotent :
  (forall ss fa fb now now' db,
     let db1 := snd (create_relation ss fa fb now db) in
     snd (create_relation ss fa fb now' db1) = db1
     /\ (fst (create_relation ss fa fb now db) = created ->
         fst (create_relation ss fa fb now' db1) = alreadyExists))
  /\ (forall ss t x y now now' db,
        keyed db -> company_user ss t db -> x <> y ->
        owns t x db -> owns t y db ->
        (forall r, In r (relations db) -> joins x y r = false) ->
        exists db1,
          create_relation ss (Parsed x) (Parsed y) now db = (created, db1)
          /\ create_relation ss (Parsed y) (Parsed x) now db = (created, db1)
          /\ create_relation ss (Parsed x) (Parsed y) now' db1
             = (alreadyExists, db1)
          /\ create_relation ss (Parsed y) (Parsed x) now' db1
             = (alreadyExists, db1)
          /\ length (filter (joins x y) (relations db1)) = 1%nat
          /\ length (filter (joins x y) (list_relations (Some t) db1))
             = 1%nat
          /\ category RelationExists <> error).
Proof.
  split; [exact create_relation_twice|].
  intros ss t x y now now' db Hk Hu Hxy Hx Hy Hfresh.
  set (rel := RecordRelation.mk
                (next_rowid (map RecordRelation.id (relations db)))
                (Z.min x y) (Z.max x y) t now).
  set (db1 := set_relations db (relations db ++ [rel])).
  assert (Hu1 : company_user ss t db1) by exact Hu.
  assert (Hx1 : owns t x db1) by exact Hx.
  assert (Hy1 : owns t y db1) by exact Hy.
  assert (Hk1 : keyed db1).
  { destruct Hk as (H1 & H2 & H3 & H4). repeat split; try assumption.
    apply (ascending_insert RecordRelation.id); [reflexivity | exact H4]. }
  assert (Hfresh' : forall r, In r (relations db) -> joins y x r = false)
    by (intros r Hr; rewrite joins_sym; auto).
  assert (Hfirst : create_relation ss (Parsed x) (Parsed y) now db
                   = (created, db1)).
  { rewrite (create_relation_owned ss t db x y now Hu Hk Hxy Hx Hy).
    rewrite (find_relation_fresh x y _ db Hfresh).
    rewrite (insert_relation_fresh x y t now db Hfresh). reflexivity. }
  assert (Hsecond : create_relation ss (Parsed x) (Parsed y) now' db1
                    = (alreadyExists, db1)).
  { rewrite (create_relation_owned ss t db1 x y now' Hu1 Hk1 Hxy Hx1 Hy1).
    destruct (find_relation (Z.min x y) (Z.max x y) (Some t) db1) eqn:E;
      [reflexivity|].
    exfalso. revert E. apply (find_relation_inserted _ _ _ now db1 (relations db)).
    reflexivity. }
  assert (Hrel : joins x y rel = true) by (apply joins_canonical; reflexivity).
  exists db1. repeat split.
  - exact Hfirst.
  - rewrite <- Hfirst.
    rewrite (create_relation_owned ss t db x y now Hu Hk Hxy Hx Hy).
    rewrite (create_relation_owned ss t db y x now Hu Hk (not_eq_sym Hxy)
               Hy Hx).
    rewrite (Z.min_comm y x), (Z.max_comm y x). reflexivity.
  - exact Hsecond.
  - rewrite <- Hsecond.
    rewrite (create_relation_owned ss t db1 x y now' Hu1 Hk1 Hxy Hx1 Hy1).
    rewrite (create_relation_owned ss t db1 y x now' Hu1 Hk1
               (not_eq_sym Hxy) Hy1 Hx1).
    rewrite (Z.min_comm y x), (Z.max_comm y x). reflexivity.
  - simpl. rewrite (filter_joins_fresh x y _ rel Hfresh Hrel). reflexivity.
  - unfold list_relations. simpl. rewrite filter_app. simpl.
    rewrite Z.eqb_refl. rewrite filter_app. simpl. rewrite Hrel.
    rewrite length_app. simpl.
    replace (filter (joins x y) _) with (@nil RecordRelation.t); [reflexivity|].
    symmetry. apply filter_nil_iff. intros r Hr. apply filter_In in Hr.
    apply Hfresh. tauto.
  - discriminate.
Qed.

(** C3: [normalize] does not depend on the order of its arguments, puts the
    smaller id first, and is a total function: it yields a pair on every
    input. *)
Theorem normalized_pair_canonical x y :
  x <> y ->
  normalized_pair x y = normalized_pair y x
  /\ fst (normalized_pair x y) = Z.min x y
  /\ snd (normalized_pair x y) = Z.max x y
  /\ fst (normalized_pair x y) < snd (normalized_pair x y)
  /\ exists lo hi, normalized_pair x y = (lo, hi) /\ (lo = x \/ lo = y).
Proof.
  intros H. rewrite !normalized_pair_min_max. simpl.
  repeat split; try lia.
  - f_equal; lia.
  - exists (Z.min x y), (Z.max x y). split; [reflexivity | lia].
Qed.

(** C4, as stated, fails: for the company user of the scenario and the ids 1
    and 2^63, of which the second is no record at all, the count of matching
    records is not 2, and the request raises [OverflowError] instead of
    answering [InvalidEndpointsError]. *)
Lemma create_relation_out_of_range_raises :
  count_records (Some Scenario.T) [1; 2 ^ 63] Scenario.store <> 2%nat
  /\ create_relation Scenario.member (Parsed 1) (Parsed (2 ^ 63)) 40
       Scenario.store
     = (Raised OverflowError, Scenario.store)
  /\ create_relation Scenario.member (Parsed 1) (Parsed (2 ^ 63)) 40
       Scenario.store
     <> (InvalidEndpointsError, Scenario.store).
Proof.
  split; [vm_compute; discriminate|].
  split; [vm_compute; reflexivity|]. vm_compute. discriminate.
Qed.

(** C4, amended: tenant isolation at relation creation. For a company user
    of tenant [t] and two distinct ids within SQLite's 64-bit integer range,
    the request is rejected with [InvalidEndpointsError] and the store is
    left as it was whenever the count of matching records is not 2, which
    covers every case where one of the ids is not a record of [t]. When one
    of the ids is an integer SQLite cannot hold, the count query raises
    [OverflowError]; no relation is inserted then either. *)
Theorem create_relation_tenant_isolation ss t x y now db :
  company_user ss t db -> x <> y ->
  (int64 x = true -> int64 y = true ->
   count_records (Some t) [x; y] db <> 2%nat ->
   create_relation ss (Parsed x) (Parsed y) now db
   = (InvalidEndpointsError, db))
  /\ (int64 x = true -> int64 y = true ->
      keyed db -> ~ (owns t x db /\ owns t y db) ->
      create_relation ss (Parsed x) (Parsed y) now db
      = (InvalidEndpointsError, db))
  /\ (sqlite_integer db x = false \/ sqlite_integer db y = false ->
      create_relation ss (Parsed x) (Parsed y) now db
      = (Raised OverflowError, db)).
Proof.
  intros Hu Hxy.
  pose proof (create_relation_company_user ss t db x y now Hu Hxy) as E.
  assert (Hcount : int64 x = true -> int64 y = true ->
                   count_records (Some t) [x; y] db <> 2%nat ->
                   create_relation ss (Parsed x) (Parsed y) now db
                   = (InvalidEndpointsError, db)).
  { intros Hx Hy Hc. rewrite E.
    rewrite (int64_sqlite_integer db x Hx), (int64_sqlite_integer db y Hy).
    apply Nat.eqb_neq in Hc. rewrite Hc. reflexivity. }
  split; [exact Hcount|]. split.
  - intros Hx Hy Hk Hn. apply Hcount; [assumption | assumption |].
    intros Hc. apply Hn.
    apply (count_records_two t x y db Hk Hxy). exact Hc.
  - intros H. rewrite E.
    destruct H as [-> | ->]; [reflexivity|]. rewrite andb_false_r.
    reflexivity.
Qed.

(** C7: a relation of a record to itself is rejected with
    [SelfRelationError] for every logged-in caller, every id and every
    store, and the store is left as it was. *)
Theorem create_relation_self_rejected ss x now db :
  truthy (user_id ss) = true ->
  create_relation ss (Parsed x) (Parsed x) now db = (SelfRelationError, db).
Proof.
  intros Hl. unfold create_relation, login_required. rewrite Hl. simpl.
  rewrite Z.eqb_refl. reflexivity.
Qed.

(** ** Effects of the operations on the tables *)

Lemma create_relation_effect ss fa fb now db :
  let db' := snd (create_relation ss fa fb now db) in
  db' = db
  \/ exists rel,
       db' = set_relations db (relations db ++ [rel])
       /\ RecordRelation.a_id rel < RecordRelation.b_id rel
       /\ RecordRelation.id rel
          = next_rowid (map RecordRelation.id (relations db)).
Proof.
  unfold create_relation, login_required.
  destruct (negb (truthy (user_id ss))); [left; reflexivity|].
  destruct (py_int fa) as [e|x]; [left; reflexivity|].
  destruct (py_int fb) as [e|y]; [left; reflexivity|].
  destruct (x =? y) eqn:Hxy; [left; reflexivity|].
  destruct (session_user ss db) as [e|[u|]];
    [left; reflexivity| |left; reflexivity].
  destruct (_ || _); [left; reflexivity|].
  destruct (negb (sqlite_integer _ _ && _)); [left; reflexivity|].
  destruct (negb _); [left; reflexivity|].
  rewrite normalized_pair_min_max.
  destruct (find_relation _ _ _ _); [left; reflexivity|].
  destruct (insert_relation _ _ _ _ _) as [db'|] eqn:E; [|left; reflexivity].
  right. apply insert_relation_some in E. destruct E as (cid & _ & ->).
  eexists. split; [reflexivity|]. simpl. bool_hyps. split; [lia | reflexivity].
Qed.

Lemma delete_relation_effect ss fr db :
  let db' := snd (delete_relation ss fr db) in
  db' = db \/ exists p, db' = set_relations db (filter p (relations db)).
Proof.
  unfold delete_relation, login_required.
  repeat (break_if; try (left; reflexivity)).
  right. eexists. reflexivity.
Qed.

Lemma insert_record_effect c n d g now db db' :
  insert_record c n d g now db = Some db' ->
  exists r,
    db' = set_records db (records db ++ [r])
    /\ Record_.id r = next_rowid (map Record_.id (records db))
    /\ Some (Record_.company_id r) = c.
Proof.
  unfold insert_record. destruct c as [cid|]; [|discriminate].
  intros [= <-]. eexists. repeat split.
Qed.

Lemma create_record_effect ss n d g now db :
  let db' := snd (create_record ss n d g now db) in
  db' = db
  \/ exists r,
       db' = set_records db (records db ++ [r])
       /\ Record_.id r = next_rowid (map Record_.id (records db)).
Proof.
  unfold create_record, login_required.
  repeat (break_if; try (left; reflexivity)). right.
  match goal with H : insert_record _ _ _ _ _ _ = Some _ |- _ =>
    apply insert_record_effect in H; destruct H as (r & -> & Hr & _) end.
  exists r. split; [reflexivity | exact Hr].
Qed.

Lemma insert_user_effect e h s c db db' :
  insert_user e h s c db = Some db' ->
  exists u,
    db' = set_users db (users db ++ [u])
    /\ User.id u = next_rowid (map User.id (users db)).
Proof.
  unfold insert_user. destruct (existsb _ _); [discriminate|].
  intros [= <-]. eexists. split; reflexivity.
Qed.

Lemma create_user_effect ss e p c s h db :
  let db' := snd (create_user ss e p c s h db) in
  db' = db
  \/ exists u,
       db' = set_users db (users db ++ [u])
       /\ User.id u = next_rowid (map User.id (users db)).
Proof.
  unfold create_user, superadmin_required.
  repeat (break_if; try (left; reflexivity)); right;
    eapply insert_user_effect; eassumption.
Qed.

Lemma init_db_effect h db :
  init_db h db = db
  \/ exists u,
       init_db h db = set_users db (users db ++ [u])
       /\ User.id u = next_rowid (map User.id (users db)).
Proof.
  unfold init_db.
  repeat (break_if; try (left; reflexivity)); right;
    eapply insert_user_effect; eassumption.
Qed.

Lemma create_company_effect ss n s h p c now db :
  let db' := snd (create_company ss n s h p c now db) in
  db' = db
  \/ exists co,
       db' = set_companies db (companies db ++ [co])
       /\ Company.id co = next_rowid (map Company.id (companies db)).
Proof.
  unfold create_company, superadmin_required, insert_company.
  repeat (break_if; try (left; reflexivity)).
  right. eexists. split; reflexivity.
Qed.

Lemma api_graph_readonly ss c t db : snd (api_graph ss c t db) = db.
Proof.
  unfold api_graph, login_required. repeat break_if; reflexivity.
Qed.

Lemma seed_relations t0 t1 t2 db :
  relations (seed t0 t1 t2 db) = relations db.
Proof. reflexivity. Qed.

(** ** Preservation of the invariants *)

Lemma exec_relations op db :
  relations (exec op db) = relations db
  \/ (exists rel,
        relations (exec op db) = relations db ++ [rel]
        /\ RecordRelation.a_id rel < RecordRelation.b_id rel
        /\ RecordRelation.id rel
           = next_rowid (map RecordRelation.id (relations db)))
  \/ exists p, relations (exec op db) = filter p (relations db).
Proof.
  destruct op; simpl.
  - destruct (init_db_effect password_hash db) as [->|(u & -> & _)]; auto.
  - auto.
  - destruct (create_company_effect ss name street house_number postal_code
                city now db) as [->|(c & -> & _)]; auto.
  - destruct (create_user_effect ss email password company_id0 is_superadmin0
                password_hash db) as [->|(u & -> & _)]; auto.
  - destruct (create_record_effect ss name description group now db)
      as [->|(r & -> & _)]; auto.
  - destruct (create_relation_effect ss a_id b_id now db)
      as [->|(rel & -> & H)]; [auto|].
    right. left. exists rel. auto.
  - destruct (delete_relation_effect ss rel_id db) as [->|(p & ->)]; [auto|].
    right. right. exists p. reflexivity.
  - rewrite api_graph_readonly. auto.
Qed.

Lemma exec_canonical op db : canonical db -> canonical (exec op db).
Proof.
  unfold canonical. intros H.
  destruct (exec_relations op db) as [->|[(rel & -> & Hr & _)|(p & ->)]].
  - exact H.
  - apply Forall_app. split; [exact H | repeat constructor; exact Hr].
  - rewrite Forall_forall in *. intros r Hr. apply H.
    apply filter_In in Hr. tauto.
Qed.

Lemma reachable_canonical db : reachable db -> canonical db.
Proof.
  induction 1 as [|op db _ IH]; [constructor | apply exec_canonical, IH].
Qed.

Lemma seed_keyed t0 t1 t2 db : keyed db -> keyed (seed t0 t1 t2 db).
Proof.
  intros (_ & Hu & _ & Hr). unfold keyed, seed. simpl.
  repeat split; try assumption; unfold ascending; repeat constructor.
Qed.

Lemma exec_keyed op db : keyed db -> keyed (exec op db).
Proof.
  intros Hk. pose proof Hk as (Hc & Hu & Hr & Hl).
  destruct op; simpl.
  - destruct (init_db_effect password_hash db) as [->|(u & -> & E)];
      [assumption|].
    repeat split; try assumption. apply ascending_insert; assumption.
  - apply seed_keyed, Hk.
  - destruct (create_company_effect ss name street house_number postal_code
                city now db) as [->|(c & -> & E)]; [assumption|].
    repeat split; try assumption. apply ascending_insert; assumption.
  - destruct (create_user_effect ss email password company_id0 is_superadmin0
                password_hash db) as [->|(u & -> & E)]; [assumption|].
    repeat split; try assumption. apply ascending_insert; assumption.
  - destruct (create_record_effect ss name description group now db)
      as [->|(r & -> & E)]; [assumption|].
    repeat split; try assumption. apply ascending_insert; assumption.
  - destruct (create_relation_effect ss a_id b_id now db)
      as [->|(rel & -> & _ & E)]; [assumption|].
    repeat split; try assumption. apply ascending_insert; assumption.
  - destruct (delete_relation_effect ss rel_id db) as [->|(p & ->)];
      [assumption|].
    repeat split; try assumption. apply ascending_filter; assumption.
  - rewrite api_graph_readonly. assumption.
Qed.

Lemma reachable_keyed db : reachable db -> keyed db.
Proof.
  induction 1 as [|op db _ IH]; [|apply exec_keyed, IH].
  repeat split; constructor.
Qed.

Lemma reachable_run ops db : reachable db -> reachable (run ops db).
Proof.
  revert db. induction ops as [|op ops IH]; simpl; intros db H; [exact H|].
  apply IH. constructor. exact H.
Qed.

Lemma api_graph_json ss c t db g :
  fst (api_graph ss c t db) = Json g ->
  exists cid, g = graph_of cid t db.
Proof.
  unfold api_graph, login_required.
  repeat break_if; simpl; intros [=]; subst; eexists; reflexivity.
Qed.

(** C2: the canonicalization invariant. Every relation of every database
    the program can produce has [a_id < b_id]; every operation preserves
    this from any store that has it; and every edge that [getGraph]
    serializes from such a store has [a < b]. *)
Theorem canonicalization_invariant :
  (forall db, reachable db -> canonical db)
  /\ (forall op db, canonical db -> canonical (exec op db))
  /\ (forall ss c t db g,
        canonical db -> fst (api_graph ss c t db) = Json g ->
        Forall (fun e => a e < b e) (edges g)).
Proof.
  split; [exact reachable_canonical|]. split; [exact exec_canonical|].
  intros ss c t db g Hc Hg. apply api_graph_json in Hg. destruct Hg as [cid ->].
  unfold graph_of. simpl. apply Forall_map.
  unfold canonical in Hc. rewrite Forall_forall in *.
  intros r Hr. apply filter_In in Hr. simpl. apply Hc. tauto.
Qed.

(** ** [api_graph] *)

Lemma api_graph_non_superadmin ss u req t db :
  current_user ss db = Some u -> User.is_superadmin u = false ->
  api_graph ss req t db = (Json (graph_of (User.company_id u) t db), db).
Proof.
  intros Hu Hs. unfold api_graph, login_required.
  rewrite (current_user_logged_in _ _ _ Hu), (session_user_some _ _ _ Hu), Hs. reflexivity.
Qed.

Lemma eq_col_some x t : eq_col x (Some t) = true <-> x = t.
Proof. simpl. apply Z.eqb_eq. Qed.

(** C5: a caller who is no super admin and belongs to company [A] gets the
    graph of [A] whatever company id the request names: the response is the
    same for every requested id, its nodes and edges are exactly the records
    and relations of [A], and it is the same on every store that holds the
    same rows of [A]. *)
Theorem api_graph_scoped_to_caller ss u A req t db :
  current_user ss db = Some u ->
  User.is_superadmin u = false ->
  User.company_id u = Some A ->
  exists g,
    api_graph ss req t db = (Json g, db)
    /\ (forall req', api_graph ss req' t db = (Json g, db))
    /\ graph_company_id g = Some A
    /\ (forall n, In n (nodes g) <->
                  exists r, In r (records db)
                            /\ Record_.company_id r = A /\ n = node_of r)
    /\ (forall e, In e (edges g) <->
                  exists r, In r (relations db)
                            /\ RecordRelation.company_id r = A
                            /\ e = edge_of r)
    /\ (forall req' db' u',
          current_user ss db' = Some u' ->
          User.is_superadmin u' = false ->
          User.company_id u' = Some A ->
          tenant_records (Some A) db' = tenant_records (Some A) db ->
          list_relations (Some A) db' = list_relations (Some A) db ->
          fst (api_graph ss req' t db') = Json g).
Proof.
  intros Hu Hs Hc. exists (graph_of (Some A) t db).
  split; [|split; [|split; [|split; [|split]]]].
  - rewrite (api_graph_non_superadmin ss u req t db Hu Hs), Hc. reflexivity.
  - intros req'.
    rewrite (api_graph_non_superadmin ss u req' t db Hu Hs), Hc. reflexivity.
  - reflexivity.
  - intros n. unfold graph_of. simpl. rewrite in_map_iff. split.
    + intros (r & <- & Hr). apply filter_In in Hr. destruct Hr as [Hr E].
      apply eq_col_some in E. exists r. auto.
    + intros (r & Hr & E & ->). exists r. split; [reflexivity|].
      apply filter_In. split; [exact Hr | apply eq_col_some, E].
  - intros e. unfold graph_of. simpl. rewrite in_map_iff. split.
    + intros (r & <- & Hr). apply filter_In in Hr. destruct Hr as [Hr E].
      apply eq_col_some in E. exists r. auto.
    + intros (r & Hr & E & ->). exists r. split; [reflexivity|].
      apply filter_In. split; [exact Hr | apply eq_col_some, E].
  - intros req' db' u' Hu' Hs' Hc' Hrec Hrel.
    rewrite (api_graph_non_superadmin ss u' req' t db' Hu' Hs'), Hc'.
    unfold tenant_records in Hrec. unfold list_relations in Hrel.
    simpl. unfold graph_of. rewrite Hrec, Hrel. reflexivity.
Qed.

(** ** [delete_relation] *)

Lemma delete_relation_company_user ss t rel_id db :
  company_user ss t db ->
  delete_relation ss (Parsed rel_id) db
  = if negb (sqlite_integer db rel_id) then (Raised OverflowError, db)
    else
      match hd_error
              (filter (fun r => (RecordRelation.id r =? rel_id)
                                && (RecordRelation.company_id r =? t))
                 (relations db)) with
      | Some rel =>
          (deleted,
           set_relations db
             (filter (fun r => negb (RecordRelation.id r
                                     =? RecordRelation.id rel))
                (relations db)))
      | None => (notFound, db)
      end.
Proof.
  intros Hu. pose proof (company_user_logged_in _ _ _ Hu) as Hl.
  destruct Hu as (u & Hu & Hs & Hc & Ht).
  unfold delete_relation, login_required.
  rewrite Hl, (session_user_some _ _ _ Hu), Hs, Hc, (truthy_some t Ht).
  reflexivity.
Qed.

Lemma delete_relation_lookup ss t rel_id db :
  company_user ss t db -> sqlite_integer db rel_id = true ->
  delete_relation ss (Parsed rel_id) db
  = match hd_error
            (filter (fun r => (RecordRelation.id r =? rel_id)
                              && (RecordRelation.company_id r =? t))
               (relations db)) with
    | Some rel =>
        (deleted,
         set_relations db
           (filter (fun r => negb (RecordRelation.id r
                                   =? RecordRelation.id rel))
              (relations db)))
    | None => (notFound, db)
    end.
Proof.
  intros Hu Hq. rewrite (delete_relation_company_user ss t rel_id db Hu), Hq.
  reflexivity.
Qed.

(** C6: [deleteRelation] by a company user of tenant [B] deletes exactly
    when a relation with the given id belongs to [B], and then removes the
    row with that id; in every other case the store is left as it was. A
    relation of another tenant is not found, stays in the store, and the
    answer is the one given for an id within SQLite's 64-bit integer range
    that no relation has; an id that SQLite cannot hold makes the lookup
    raise [OverflowError]. *)
Theorem delete_relation_cross_tenant_safe ss B rel_id db :
  company_user ss B db -> keyed db ->
  let owned :=
    exists r, In r (relations db) /\ RecordRelation.id r = rel_id
              /\ RecordRelation.company_id r = B in
  (owned ->
   delete_relation ss (Parsed rel_id) db
   = (deleted,
      set_relations db
        (filter (fun r => negb (RecordRelation.id r =? rel_id))
           (relations db))))
  /\ (~ owned ->
      snd (delete_relation ss (Parsed rel_id) db) = db
      /\ fst (delete_relation ss (Parsed rel_id) db) <> deleted)
  /\ (~ owned -> int64 rel_id = true ->
      delete_relation ss (Parsed rel_id) db = (notFound, db))
  /\ (forall r A,
        In r (relations db) -> RecordRelation.id r = rel_id ->
        RecordRelation.company_id r = A -> A <> B ->
        delete_relation ss (Parsed rel_id) db = (notFound, db)
        /\ In r (relations (snd (delete_relation ss (Parsed rel_id) db))))
  /\ ((forall r, In r (relations db) -> RecordRelation.id r <> rel_id) ->
      int64 rel_id = true ->
      delete_relation ss (Parsed rel_id) db = (notFound, db))
  /\ (sqlite_integer db rel_id = false ->
      delete_relation ss (Parsed rel_id) db = (Raised OverflowError, db)).
Proof.
  intros Hu Hk owned.
  pose proof (delete_relation_company_user ss B rel_id db Hu) as E.
  assert (Hnot : ~ owned -> sqlite_integer db rel_id = true ->
                 delete_relation ss (Parsed rel_id) db = (notFound, db)).
  { intros Hn Hq. rewrite E, Hq. cbn [negb].
    destruct (hd_error _) as [rel|] eqn:El; [|reflexivity].
    apply hd_error_filter in El. destruct El as [Hr El]. bool_hyps.
    exfalso. apply Hn. exists rel. auto. }
  split; [|split; [|split; [|split; [|split]]]].
  - intros (r & Hr & Hi & Hc).
    rewrite E. subst rel_id. rewrite (relation_id_stored db r Hr). cbn [negb].
    destruct (hd_error _) as [rel|] eqn:El.
    + apply hd_error_filter in El. destruct El as [_ El]. bool_hyps.
      replace (RecordRelation.id rel) with (RecordRelation.id r).
      reflexivity.
    + exfalso. rewrite hd_error_filter_none in El. specialize (El r Hr).
      rewrite Hc, !Z.eqb_refl in El. discriminate.
  - intros Hn. destruct (sqlite_integer db rel_id) eqn:Hq.
    + rewrite (Hnot Hn eq_refl). split; [reflexivity | discriminate].
    + rewrite E. split; [reflexivity | discriminate].
  - intros Hn Hq. apply Hnot; [exact Hn | apply int64_sqlite_integer, Hq].
  - intros r A Hr Hi Hc HAB.
    assert (Hn : ~ owned).
    { intros (r' & Hr' & Hi' & Hc').
      destruct Hk as (_ & _ & _ & Hk).
      assert (r' = r)
        by (apply (key_unique RecordRelation.id (relations db));
            auto; congruence).
      subst r'. congruence. }
    assert (Hq : sqlite_integer db rel_id = true)
      by (subst rel_id; apply relation_id_stored, Hr).
    rewrite (Hnot Hn Hq). split; [reflexivity | exact Hr].
  - intros Hnone Hq. apply Hnot; [|apply int64_sqlite_integer, Hq].
    intros (r & Hr & Hi & _). exact (Hnone r Hr Hi).
  - intros Hq. rewrite E, Hq. reflexivity.
Qed.

(** ** [create_record] *)

(** C9: for a logged-in caller [createNode] answers [ValidationError]
    exactly when the name is empty after stripping, that is when it consists
    of whitespace only, and then nothing is stored; otherwise, for a company
    user of tenant [t], it appends a record of [t] with the stripped fields
    and the current timestamp. *)
Theorem create_record_validation ss form_name form_description form_group
    now db :
  truthy (user_id ss) = true ->
  let name := PyStr.or_empty form_name in
  (fst (create_record ss form_name form_description form_group now db)
   = ValidationError
   <-> PyStr.strip name = [])
  /\ (PyStr.strip name = [] <-> forallb PyStr.isspace name = true)
  /\ (PyStr.strip name = [] ->
      snd (create_record ss form_name form_description form_group now db)
      = db)
  /\ (forall t,
        company_user ss t db -> PyStr.strip name <> [] ->
        create_record ss form_name form_description form_group now db
        = (Redirect (Some RecordCreated) ep_records,
           set_records db
             (records db
              ++ [Record_.mk (next_rowid (map Record_.id (records db))) t
                    (PyStr.strip name)
                    (Some (PyStr.strip (PyStr.or_empty form_description)))
                    (Some (PyStr.strip (PyStr.or_empty form_group)))
                    now]))).
Proof.
  intros Hl name.
  unfold create_record, login_required, form_text. rewrite Hl. simpl.
  fold name.
  split; [|split; [apply PyStrFacts.strip_nil|split]].
  - destruct (PyStr.strip name) as [|c r] eqn:E; simpl.
    + split; reflexivity.
    + split; [|discriminate].
      repeat break_if; simpl; discriminate.
  - intros ->. reflexivity.
  - intros t (u & Hu & Hs & Hc & Ht) Hn.
    destruct (PyStr.strip name) as [|c r] eqn:E; [congruence|]. simpl.
    rewrite (session_user_some _ _ _ Hu), Hs, Hc, (truthy_some t Ht). reflexivity.
Qed.

(** ** Callers without a company *)

(** C10: for a caller who is a super admin or has no company id, every
    mutating request is turned down and leaves the store as it was:
    [create_record] with [ValidationError] or the company-user error,
    [create_relation] with [SelfRelationError] or the company-user error,
    [delete_relation] with the company-user error. A super admin can still
    read the graph of any company it names by a non-zero id within SQLite's
    64-bit integer range. *)
Theorem mutations_need_company_user ss u db :
  current_user ss db = Some u ->
  User.is_superadmin u = true \/ truthy (User.company_id u) = false ->
  (forall n d g now,
     snd (create_record ss n d g now db) = db
     /\ (fst (create_record ss n d g now db) = ValidationError
         \/ fst (create_record ss n d g now db) = NotCompanyUserError))
  /\ (forall fa fb now,
        snd (create_relation ss fa fb now db) = db
        /\ rejected (fst (create_relation ss fa fb now db)))
  /\ (forall x y now,
        fst (create_relation ss (Parsed x) (Parsed y) now db)
        = if x =? y then SelfRelationError else NotCompanyUserError)
  /\ (forall fr,
        snd (delete_relation ss fr db) = db
        /\ rejected (fst (delete_relation ss fr db)))
  /\ (forall r, delete_relation ss (Parsed r) db = (NotCompanyUserError, db))
  /\ (User.is_superadmin u = true ->
      forall c t, c <> 0 -> int64 c = true ->
        api_graph ss (Parsed c) t db = (Json (graph_of (Some c) t db), db)).
Proof.
  intros Hu Hno. pose proof (current_user_logged_in _ _ _ Hu) as Hl.
  assert (Hgate : User.is_superadmin u
                  || negb (truthy (User.company_id u)) = true).
  { destruct Hno as [-> | ->]; [reflexivity | apply orb_true_r]. }
  split; [|split; [|split; [|split; [|split]]]].
  - intros n d g now. unfold create_record, login_required. rewrite Hl. simpl.
    destruct (PyStr.is_empty _); [split; [|left]; reflexivity|].
    rewrite (session_user_some _ _ _ Hu), Hgate. split; [|right]; reflexivity.
  - intros fa fb now. unfold create_relation, login_required. rewrite Hl.
    simpl.
    destruct (py_int fa); [split; [reflexivity | exact I]|].
    destruct (py_int fb); [split; [reflexivity | exact I]|].
    destruct (_ =? _); [split; reflexivity|].
    rewrite (session_user_some _ _ _ Hu), Hgate. split; reflexivity.
  - intros x y now. unfold create_relation, login_required. rewrite Hl. simpl.
    destruct (x =? y); [reflexivity|]. rewrite (session_user_some _ _ _ Hu), Hgate. reflexivity.
  - intros fr. unfold delete_relation, login_required. rewrite Hl. simpl.
    destruct (py_int fr); [split; [reflexivity | exact I]|].
    rewrite (session_user_some _ _ _ Hu), Hgate. split; reflexivity.
  - intros r. unfold delete_relation, login_required. rewrite Hl. simpl.
    rewrite (session_user_some _ _ _ Hu), Hgate. reflexivity.
  - intros Hs c t Hc Hq. unfold api_graph, login_required. rewrite Hl.
    cbn [negb]. rewrite (session_user_some _ _ _ Hu), Hs.
    cbn [negb get_int truthy]. apply Z.eqb_neq in Hc. rewrite Hc.
    cbn [negb]. rewrite (int64_sqlite_integer db c Hq). reflexivity.
Qed.

(** ** The end-to-end scenario *)

(** With primary keys, [getGraph] lists the nodes by ascending id. *)
Lemma api_graph_nodes_ascending ss c t db g :
  keyed db -> fst (api_graph ss c t db) = Json g ->
  ascending (map node_id (nodes g)).
Proof.
  intros (_ & _ & Hk & _) Hg. apply api_graph_json in Hg.
  destruct Hg as [cid ->]. unfold graph_of. simpl.
  rewrite map_map. simpl. apply (ascending_filter Record_.id). exact Hk.
Qed.

(** C8, as stated, fails: after the scenario the snapshot lists the node
    with id 1 before the node with id 2, not the newest first. *)
Lemma end_to_end_newest_first_fails :
  exists db',
    create_relation Scenario.member (Parsed 1) (Parsed 2) 30 Scenario.store
    = (created, db')
    /\ fst (api_graph Scenario.member (Parsed Scenario.T) 40 db')
       = Json (Scenario.table_order 40)
    /\ fst (api_graph Scenario.member (Parsed Scenario.T) 40 db')
       <> Json (Scenario.newest_first 40).
Proof.
  eexists. split; [vm_compute; reflexivity|].
  split; [vm_compute; reflexivity|]. vm_compute. discriminate.
Qed.

(** C8, amended: after creating tenant T, the nodes Alpha (id 1) and Beta
    (id 2) under T and the relation of 1 and 2, [getGraph(false, T, T)]
    returns the nodes in table order, id 1 before id 2, the single edge in
    canonical order, and the company id T. *)
Theorem end_to_end_scenario h_admin h_member t_company t_alpha t_beta
    t_relation now_ts :
  let db :=
    run (Scenario.setup h_admin h_member t_company t_alpha t_beta)
      empty_db in
  exists db',
    map Company.id (companies db) = [Scenario.T]
    /\ create_relation Scenario.member (Parsed 1) (Parsed 2) t_relation db
       = (created, db')
    /\ api_graph Scenario.member (Parsed Scenario.T) now_ts db'
       = (Json (Scenario.table_order now_ts), db').
Proof.
  eexists. split; [reflexivity|]. split; reflexivity.
Qed.

(** * Instances on the example stores *)

Lemma store_keyed : keyed Scenario.store.
Proof.
  unfold keyed, ascending. vm_compute.
  repeat split; repeat constructor.
Defined.

Lemma two_tenants_keyed : keyed Scenario.two_tenants.
Proof.
  unfold keyed, ascending. vm_compute.
  repeat split; repeat constructor.
Defined.

Lemma member_company_user :
  company_user Scenario.member Scenario.T Scenario.store.
Proof.
  unfold company_user. vm_compute. eexists.
  repeat split. discriminate.
Defined.

Lemma member_company_user_two_tenants :
  company_user Scenario.member Scenario.T Scenario.two_tenants.
Proof.
  unfold company_user. vm_compute. eexists.
  repeat split. discriminate.
Defined.

Lemma outsider_company_user :
  company_user Scenario.outsider 2 Scenario.two_tenants.
Proof.
  unfold company_user. vm_compute. eexists.
  repeat split. discriminate.
Defined.

Lemma create_relation_idempotent_witness :
  exists db1,
    create_relation Scenario.member (Parsed 2) (Parsed 1) 30 Scenario.store
    = (created, db1)
    /\ create_relation Scenario.member (Parsed 1) (Parsed 2) 31 db1
       = (alreadyExists, db1)
    /\ length (filter (joins 1 2) (relations db1)) = 1%nat.
Proof.
  destruct (proj2 create_relation_idempotent Scenario.member Scenario.T 1 2
              30 31 Scenario.store store_keyed member_company_user)
    as (db1 & _ & H1 & H2 & _ & H3 & _).
  - lia.
  - vm_compute. eexists. split; [left; reflexivity | split; reflexivity].
  - vm_compute. eexists.
    split; [right; left; reflexivity | split; reflexivity].
  - vm_compute. intros r [].
  - exists db1. auto.
Defined.

Lemma canonicalization_invariant_witness :
  canonical Scenario.two_tenants
  /\ canonical (exec (OpDeleteRelation Scenario.member (Parsed 1))
                  Scenario.two_tenants)
  /\ Forall (fun e => a e < b e)
       (edges (graph_of (Some Scenario.T) 40 Scenario.two_tenants)).
Proof.
  destruct canonicalization_invariant as (H1 & H2 & H3).
  assert (Hr : reachable Scenario.two_tenants)
    by (apply reachable_run, reachable_run, reachable_empty).
  split; [exact (H1 _ Hr)|]. split; [exact (H2 _ _ (H1 _ Hr))|].
  apply (H3 Scenario.member (Parsed 2) 40 Scenario.two_tenants _ (H1 _ Hr)).
  vm_compute. reflexivity.
Defined.

Lemma normalized_pair_canonical_witness :
  normalized_pair 7 3 = normalized_pair 3 7 /\ fst (normalized_pair 7 3) = 3.
Proof.
  destruct (normalized_pair_canonical 7 3) as (H1 & H2 & _).
  - lia.
  - split; [exact H1 | exact H2].
Defined.

Lemma create_relation_tenant_isolation_witness :
  create_relation Scenario.member (Parsed 1) (Parsed 3) 40
    Scenario.two_tenants
  = (InvalidEndpointsError, Scenario.two_tenants).
Proof.
  destruct (create_relation_tenant_isolation Scenario.member Scenario.T 1 3 40
              Scenario.two_tenants member_company_user_two_tenants)
    as [H _].
  - lia.
  - apply H; [reflexivity | reflexivity |]. vm_compute. discriminate.
Defined.

Lemma create_relation_self_rejected_witness :
  create_relation Scenario.member (Parsed 5) (Parsed 5) 40 Scenario.store
  = (SelfRelationError, Scenario.store).
Proof.
  apply (create_relation_self_rejected Scenario.member 5 40 Scenario.store).
  reflexivity.
Defined.

Lemma api_graph_scoped_to_caller_witness :
  exists g,
    api_graph Scenario.member (Parsed 2) 40 Scenario.two_tenants
    = (Json g, Scenario.two_tenants)
    /\ graph_company_id g = Some Scenario.T.
Proof.
  destruct (api_graph_scoped_to_caller Scenario.member
              (User.mk 2 (PyStr.of_string "member@t.local")
                 (PyStr.of_string "h2") false (Some 1))
              Scenario.T (Parsed 2) 40 Scenario.two_tenants)
    as (g & H1 & _ & H2 & _).
  - vm_compute. reflexivity.
  - reflexivity.
  - reflexivity.
  - exists g. split; assumption.
Defined.

Lemma delete_relation_cross_tenant_safe_witness :
  delete_relation Scenario.outsider (Parsed 1) Scenario.two_tenants
  = (notFound, Scenario.two_tenants).
Proof.
  destruct (delete_relation_cross_tenant_safe Scenario.outsider 2 1
              Scenario.two_tenants outsider_company_user two_tenants_keyed)
    as (_ & _ & _ & H & _).
  assert (Hin : In (RecordRelation.mk 1 1 2 1 32)
                  (relations Scenario.two_tenants))
    by (vm_compute; left; reflexivity).
  assert (Hne : 1 <> 2) by lia.
  exact (proj1 (H _ 1 Hin eq_refl eq_refl Hne)).
Defined.

Lemma create_record_validation_witness :
  create_record Scenario.member (Some (PyStr.of_string "  ")) None None 40
    Scenario.store
  = (ValidationError, Scenario.store).
Proof.
  destruct (create_record_validation Scenario.member
              (Some (PyStr.of_string "  ")) None None 40 Scenario.store)
    as (H1 & _ & H2 & _).
  - reflexivity.
  - apply injective_projections.
    + apply H1. reflexivity.
    + apply H2. reflexivity.
Defined.

Lemma mutations_need_company_user_witness :
  delete_relation Scenario.admin (Parsed 1) Scenario.two_tenants
  = (NotCompanyUserError, Scenario.two_tenants)
  /\ snd (create_record Scenario.admin (Some (PyStr.of_string "Delta")) None
            None 40 Scenario.two_tenants)
     = Scenario.two_tenants.
Proof.
  destruct (mutations_need_company_user Scenario.admin
              (User.mk 1 INITIAL_ADMIN_EMAIL (PyStr.of_string "h1") true None)
              Scenario.two_tenants)
    as (H1 & _ & _ & _ & H2 & _).
  - vm_compute. reflexivity.
  - left. reflexivity.
  - split; [apply H2 | apply H1].
Defined.

(** * Further properties of the code *)

(** ** Strings *)

Lemma pystr_eqb_eq (s1 s2 : str) : PyStr.eqb s1 s2 = true <-> s1 = s2.
Proof.
  revert s2. induction s1 as [|c1 r1 IH]; intros [|c2 r2]; simpl;
    try (split; congruence).
  rewrite andb_true_iff, N.eqb_eq, IH. split.
  - intros [-> ->]. reflexivity.
  - intros [= -> ->]. split; reflexivity.
Qed.

Lemma strip_stripped (s : str) :
  PyStr.strip s <> [] -> stripped_name (PyStr.strip s).
Proof.
  intros H. split; [exact H|].
  split; intros c Hc; apply (PyStrFacts.strip_ends s c); auto.
Qed.

Lemma is_empty_false (s : str) : PyStr.is_empty s = false -> s <> [].
Proof. destruct s; simpl; congruence. Qed.

(** ** What each operation does to the tables *)

Lemma db_eta db :
  mkDb (companies db) (users db) (records db) (relations db) = db.
Proof. destruct db. reflexivity. Qed.

Lemma create_company_row ss n s h p c now db :
  let db' := snd (create_company ss n s h p c now db) in
  db' = db
  \/ exists co,
       db' = set_companies db (companies db ++ [co])
       /\ Company.id co = next_rowid (map Company.id (companies db))
       /\ stripped_name (Company.name co).
Proof.
  unfold create_company, superadmin_required, insert_company.
  destruct (_ || _); [left; reflexivity|].
  destruct (PyStr.is_empty (form_text n)) eqn:E; [left; reflexivity|].
  right. eexists. split; [reflexivity|]. split; [reflexivity|].
  apply strip_stripped, is_empty_false, E.
Qed.

Lemma insert_user_row e h s c db db' :
  insert_user e h s c db = Some db' ->
  db' = set_users db
          (users db ++ [User.mk (next_rowid (map User.id (users db))) e h s c])
  /\ (forall v, In v (users db) -> User.email v <> e).
Proof.
  unfold insert_user. destruct (existsb _ _) eqn:E; [discriminate|].
  intros [= <-]. split; [reflexivity|].
  intros v Hv Hve.
  assert (existsb (fun u => PyStr.eqb (User.email u) e) (users db) = true)
    as H by (apply existsb_exists; exists v; split;
             [exact Hv | apply pystr_eqb_eq, Hve]).
  congruence.
Qed.

Lemma create_user_row ss e p c s h db :
  let db' := snd (create_user ss e p c s h db) in
  db' = db
  \/ exists u,
       db' = set_users db (users db ++ [u])
       /\ User.id u = next_rowid (map User.id (users db))
       /\ (forall v, In v (users db) -> User.email v <> User.email u)
       /\ (User.is_superadmin u = true <-> User.company_id u = None).
Proof.
  unfold create_user, superadmin_required.
  destruct (_ || _); [left; reflexivity|].
  destruct (_ || _); [left; reflexivity|].
  destruct (negb (PyStr.is_empty (PyStr.or_empty s))) eqn:Hs.
  - destruct (existsb _ _); [left; reflexivity|]. cbn [negb].
    destruct (insert_user _ _ _ _ _) as [db'|] eqn:E; [|left; reflexivity].
    apply insert_user_row in E. destruct E as [-> Hfresh].
    right. eexists. split; [reflexivity|]. split; [reflexivity|].
    split; [exact Hfresh|]. simpl. tauto.
  - destruct (py_int c) as [x|n]; [left; reflexivity|].
    destruct (existsb _ _); [left; reflexivity|].
    destruct (negb (sqlite_integer db n)); [left; reflexivity|].
    destruct (insert_user _ _ _ _ _) as [db'|] eqn:E; [|left; reflexivity].
    apply insert_user_row in E. destruct E as [-> Hfresh].
    right. eexists. split; [reflexivity|]. split; [reflexivity|].
    split; [exact Hfresh|]. simpl. split; discriminate.
Qed.

Lemma init_db_row h db :
  init_db h db = db
  \/ init_db h db
     = set_users db
         (users db
          ++ [User.mk (next_rowid (map User.id (users db)))
                INITIAL_ADMIN_EMAIL h true None])
     /\ (forall v, In v (users db) -> User.email v <> INITIAL_ADMIN_EMAIL).
Proof.
  unfold init_db. destruct (existsb _ _); [left; reflexivity|].
  destruct (insert_user _ _ _ _ _) as [db'|] eqn:E; [|left; reflexivity].
  right. apply insert_user_row in E. exact E.
Qed.

Lemma create_record_row ss n d g now db :
  let db' := snd (create_record ss n d g now db) in
  db' = db
  \/ exists r,
       db' = set_records db (records db ++ [r])
       /\ Record_.id r = next_rowid (map Record_.id (records db))
       /\ stripped_name (Record_.name r)
       /\ Record_.company_id r <> 0
       /\ Record_.description r <> None
       /\ Record_.group r <> None.
Proof.
  unfold create_record, login_required.
  destruct (negb _); [left; reflexivity|].
  destruct (PyStr.is_empty (form_text n)) eqn:E; [left; reflexivity|].
  destruct (session_user ss db) as [e|[u|]];
    [left; reflexivity| |left; reflexivity].
  destruct (_ || _) eqn:Hg; [left; reflexivity|].
  unfold insert_record.
  destruct (User.company_id u) as [cid|] eqn:Hc; [|left; reflexivity].
  right. eexists. split; [reflexivity|]. simpl.
  split; [reflexivity|].
  split; [apply strip_stripped, is_empty_false, E|].
  bool_hyps. unfold truthy in *. bool_hyps.
  split; [assumption | split; discriminate].
Qed.

Lemma create_relation_row ss fa fb now db :
  let db' := snd (create_relation ss fa fb now db) in
  db' = db
  \/ exists rel,
       db' = set_relations db (relations db ++ [rel])
       /\ RecordRelation.id rel
          = next_rowid (map RecordRelation.id (relations db))
       /\ RecordRelation.a_id rel < RecordRelation.b_id rel
       /\ ~ pair_stored (RecordRelation.a_id rel) (RecordRelation.b_id rel) db
       /\ count_records (Some (RecordRelation.company_id rel))
            [RecordRelation.a_id rel; RecordRelation.b_id rel] db = 2%nat.
Proof.
  unfold create_relation, login_required.
  destruct (negb (truthy (user_id ss))); [left; reflexivity|].
  destruct (py_int fa) as [e|x]; [left; reflexivity|].
  destruct (py_int fb) as [e|y]; [left; reflexivity|].
  destruct (x =? y) eqn:Hxy; [left; reflexivity|].
  destruct (session_user ss db) as [e|[u|]];
    [left; reflexivity| |left; reflexivity].
  destruct (_ || _); [left; reflexivity|].
  destruct (negb (sqlite_integer _ _ && _)); [left; reflexivity|].
  destruct (negb _) eqn:Hc; [left; reflexivity|].
  rewrite normalized_pair_min_max.
  destruct (find_relation _ _ _ _); [left; reflexivity|].
  unfold insert_relation.
  destruct (User.company_id u) as [cid|]; [|left; reflexivity].
  destruct (existsb _ _) eqn:E; [left; reflexivity|].
  right. eexists. split; [reflexivity|]. simpl. bool_hyps.
  split; [reflexivity|]. split; [lia|]. split.
  - intros (r & Hr & Ha & Hb).
    assert (existsb (fun r => (RecordRelation.a_id r =? Z.min x y)
                              && (RecordRelation.b_id r =? Z.max x y))
              (relations db) = true) as H'.
    { apply existsb_exists. exists r. split; [exact Hr|].
      rewrite Ha, Hb, !Z.eqb_refl. reflexivity. }
    congruence.
  - apply Nat.eqb_eq in Hc.
    destruct (Z.le_ge_cases x y).
    + rewrite Z.min_l, Z.max_r by assumption. exact Hc.
    + rewrite Z.min_r, Z.max_l by assumption.
      rewrite (count_records_split cid y x db) by congruence.
      rewrite (count_records_split cid x y db) in Hc by assumption. lia.
Qed.

(** ** Invariants of the tables *)

Section RowIds.
Context {A : Type} (key : A -> Z).

Lemma positive_insert (l : list A) (x : A) :
  key x = next_rowid (map key l) ->
  Forall (fun i => 1 <= i) (map key l) ->
  Forall (fun i => 1 <= i) (map key (l ++ [x])).
Proof.
  intros Hx Hl. rewrite map_app. apply Forall_app. split; [exact Hl|].
  repeat constructor. rewrite Hx.
  pose proof (next_rowid_above (map key l)) as Ha.
  destruct (map key l) as [|i ids]; [simpl; lia|].
  inversion Hl; subst. inversion Ha; subst. lia.
Qed.

Lemma positive_filter (p : A -> bool) (l : list A) :
  Forall (fun i => 1 <= i) (map key l) ->
  Forall (fun i => 1 <= i) (map key (filter p l)).
Proof.
  rewrite !Forall_forall. intros H i Hi. apply H.
  apply in_map_iff in Hi. destruct Hi as (x & <- & Hx).
  apply filter_In in Hx. apply in_map. tauto.
Qed.

End RowIds.

Section TableFacts.
Context {A B : Type} (f : A -> B).

Lemma unique_image_filter (keep : A -> bool) (rows : list A) :
  NoDup (map f rows) -> NoDup (map f (filter keep rows)).
Proof.
  induction rows as [|x rows IH]; simpl; intros H; [constructor|].
  inversion H as [|? ? Hx Hl]; subst.
  destruct (keep x); simpl; [constructor|]; auto.
  intros Hin. apply Hx. apply in_map_iff in Hin.
  destruct Hin as (y & E & Hy). apply filter_In in Hy.
  rewrite <- E. apply in_map. tauto.
Qed.

Lemma NoDup_map_snoc (l : list A) (x : A) :
  NoDup (map f l) -> (forall y, In y l -> f y <> f x) ->
  NoDup (map f (l ++ [x])).
Proof.
  intros Hl Hx. rewrite map_app. apply NoDup_app; [exact Hl | |].
  - repeat constructor. intros [].
  - intros b Hb [<-|[]]. apply in_map_iff in Hb.
    destruct Hb as (y & E & Hy). exact (Hx y Hy E).
Qed.

End TableFacts.

Lemma ascending_NoDup (ids : list Z) : ascending ids -> NoDup ids.
Proof.
  unfold ascending. induction 1 as [|i l Hs IH Hi]; constructor; [|exact IH].
  intros Hin. rewrite Forall_forall in Hi. specialize (Hi i Hin). lia.
Qed.

Lemma seed_positive t0 t1 t2 db :
  ids_positive db -> ids_positive (seed t0 t1 t2 db).
Proof.
  intros (_ & Hu & _ & Hr). unfold ids_positive, seed. simpl.
  repeat split; try assumption; repeat constructor; lia.
Qed.

Lemma exec_positive op db : ids_positive db -> ids_positive (exec op db).
Proof.
  intros Hp. pose proof Hp as (Hc & Hu & Hr & Hl).
  destruct op; simpl.
  - destruct (init_db_effect password_hash db) as [->|(u & -> & E)];
      [assumption|].
    repeat split; try assumption. apply positive_insert; assumption.
  - apply seed_positive, Hp.
  - destruct (create_company_effect ss name street house_number postal_code
                city now db) as [->|(c & -> & E)]; [assumption|].
    repeat split; try assumption. apply positive_insert; assumption.
  - destruct (create_user_effect ss email password company_id0 is_superadmin0
                password_hash db) as [->|(u & -> & E)]; [assumption|].
    repeat split; try assumption. apply positive_insert; assumption.
  - destruct (create_record_effect ss name description group now db)
      as [->|(r & -> & E)]; [assumption|].
    repeat split; try assumption. apply positive_insert; assumption.
  - destruct (create_relation_effect ss a_id b_id now db)
      as [->|(rel & -> & _ & E)]; [assumption|].
    repeat split; try assumption. apply positive_insert; assumption.
  - destruct (delete_relation_effect ss rel_id db) as [->|(p & ->)];
      [assumption|].
    repeat split; try assumption. apply positive_filter; assumption.
  - rewrite api_graph_readonly. assumption.
Qed.

Lemma reachable_positive db : reachable db -> ids_positive db.
Proof.
  induction 1 as [|op db _ IH]; [|apply exec_positive, IH].
  unfold ids_positive. simpl. repeat split; constructor.
Qed.

(** X1: primary keys. In every database the program can produce, each
    table holds its rows by strictly ascending id, so no two rows of a table
    share an id, and every id is at least 1; every operation keeps both
    properties. *)
Theorem primary_keys_invariant :
  (forall db, reachable db ->
     keyed db /\ ids_positive db
     /\ NoDup (map Record_.id (records db))
     /\ NoDup (map RecordRelation.id (relations db)))
  /\ (forall op db, keyed db -> keyed (exec op db))
  /\ (forall op db, ids_positive db -> ids_positive (exec op db)).
Proof.
  split; [|split; [exact exec_keyed | exact exec_positive]].
  intros db H.
  assert (Hk : keyed db) by (apply reachable_keyed, H).
  split; [exact Hk|]. split.
  - apply reachable_positive, H.
  - destruct Hk as (_ & _ & Hr & Hl).
    split; apply ascending_NoDup; assumption.
Qed.

Lemma exec_pairs_unique op db : pairs_unique db -> pairs_unique (exec op db).
Proof.
  unfold pairs_unique. intros H. destruct op; simpl.
  - destruct (init_db_effect password_hash db) as [->|(u & -> & _)]; exact H.
  - exact H.
  - destruct (create_company_effect ss name street house_number postal_code
                city now db) as [->|(c & -> & _)]; exact H.
  - destruct (create_user_effect ss email password company_id0 is_superadmin0
                password_hash db) as [->|(u & -> & _)]; exact H.
  - destruct (create_record_effect ss name description group now db)
      as [->|(r & -> & _)]; exact H.
  - destruct (create_relation_row ss a_id b_id now db)
      as [->|(rel & -> & _ & _ & Hn & _)]; [exact H|].
    simpl. apply NoDup_map_snoc; [exact H|].
    intros r Hr [= Ha Hb]. apply Hn. exists r. auto.
  - destruct (delete_relation_effect ss rel_id db) as [->|(p & ->)];
      [exact H|].
    simpl. apply unique_image_filter, H.
  - rewrite api_graph_readonly. exact H.
Qed.

(** X2: the unique constraint on the pair. No database the program can
    produce holds two relations with the same [(a_id, b_id)], whatever their
    companies, and every operation keeps this. *)
Theorem pair_uniqueness_invariant :
  (forall db, reachable db -> pairs_unique db)
  /\ (forall op db, pairs_unique db -> pairs_unique (exec op db)).
Proof.
  split; [|exact exec_pairs_unique].
  induction 1 as [|op db _ IH]; [constructor | apply exec_pairs_unique, IH].
Qed.

Lemma exec_emails_unique op db :
  emails_unique db -> emails_unique (exec op db).
Proof.
  unfold emails_unique. intros H. destruct op; simpl.
  - destruct (init_db_row password_hash db) as [->|[-> Hf]]; [exact H|].
    simpl. apply NoDup_map_snoc; [exact H | exact Hf].
  - exact H.
  - destruct (create_company_effect ss name street house_number postal_code
                city now db) as [->|(c & -> & _)]; exact H.
  - destruct (create_user_row ss email password company_id0 is_superadmin0
                password_hash db) as [->|(u & -> & _ & Hf & _)]; [exact H|].
    simpl. apply NoDup_map_snoc; [exact H | exact Hf].
  - destruct (create_record_effect ss name description group now db)
      as [->|(r & -> & _)]; exact H.
  - destruct (create_relation_effect ss a_id b_id now db)
      as [->|(rel & -> & _)]; exact H.
  - destruct (delete_relation_effect ss rel_id db) as [->|(p & ->)]; exact H.
  - rewrite api_graph_readonly. exact H.
Qed.

Lemma exec_users_shaped op db : users_shaped db -> users_shaped (exec op db).
Proof.
  unfold users_shaped. intros H. destruct op; simpl.
  - destruct (init_db_row password_hash db) as [->|[-> _]]; [exact H|].
    simpl. apply Forall_app. split; [exact H|].
    repeat constructor; simpl; reflexivity.
  - exact H.
  - destruct (create_company_effect ss name street house_number postal_code
                city now db) as [->|(c & -> & _)]; exact H.
  - destruct (create_user_row ss email password company_id0 is_superadmin0
                password_hash db) as [->|(u & -> & _ & _ & Hs)]; [exact H|].
    simpl. apply Forall_app. split; [exact H | constructor; [exact Hs | constructor]].
  - destruct (create_record_effect ss name description group now db)
      as [->|(r & -> & _)]; exact H.
  - destruct (create_relation_effect ss a_id b_id now db)
      as [->|(rel & -> & _)]; exact H.
  - destruct (delete_relation_effect ss rel_id db) as [->|(p & ->)]; exact H.
  - rewrite api_graph_readonly. exact H.
Qed.

(** X3: the user table. In every database the program can produce no two
    users share an e-mail address, and a user row is a super admin exactly
    when it has no company id; every operation keeps both properties. *)
Theorem user_table_invariant :
  (forall db, reachable db -> emails_unique db /\ users_shaped db)
  /\ (forall op db, emails_unique db -> emails_unique (exec op db))
  /\ (forall op db, users_shaped db -> users_shaped (exec op db)).
Proof.
  split; [|split; [exact exec_emails_unique | exact exec_users_shaped]].
  induction 1 as [|op db _ [IH1 IH2]].
  - split; constructor.
  - split; [apply exec_emails_unique, IH1 | apply exec_users_shaped, IH2].
Qed.

Lemma literal_stripped (s : str) :
  s <> [] -> PyStr.strip s = s -> stripped_name s.
Proof. intros Hn E. rewrite <- E. apply strip_stripped. rewrite E. exact Hn. Qed.

Lemma exec_names_stripped op db :
  names_stripped db -> names_stripped (exec op db).
Proof.
  unfold names_stripped. intros [Hc Hr]. destruct op; simpl.
  - destruct (init_db_effect password_hash db) as [->|(u & -> & _)];
      split; assumption.
  - unfold seed. simpl. split.
    + constructor; [|constructor].
      apply literal_stripped; [discriminate | reflexivity].
    + constructor; [|constructor; [|constructor]].
      * split; [apply literal_stripped; [discriminate | reflexivity]|].
        simpl. repeat split; discriminate.
      * split; [apply literal_stripped; [discriminate | reflexivity]|].
        simpl. repeat split; discriminate.
  - destruct (create_company_row ss name street house_number postal_code
                city now db) as [->|(c & -> & _ & Hn)]; [split; assumption|].
    simpl. split; [|assumption].
    apply Forall_app. split; [exact Hc | constructor; [exact Hn | constructor]].
  - destruct (create_user_effect ss email password company_id0 is_superadmin0
                password_hash db) as [->|(u & -> & _)]; split; assumption.
  - destruct (create_record_row ss name description group now db)
      as [->|(r & -> & _ & Hn)]; [split; assumption|].
    simpl. split; [assumption|].
    apply Forall_app. split; [exact Hr | constructor; [exact Hn | constructor]].
  - destruct (create_relation_effect ss a_id b_id now db)
      as [->|(rel & -> & _)]; split; assumption.
  - destruct (delete_relation_effect ss rel_id db) as [->|(p & ->)];
      split; assumption.
  - rewrite api_graph_readonly. split; assumption.
Qed.

(** X4: stored names. In every database the program can produce, every
    company name and every record name is non-empty and neither starts nor
    ends with whitespace, and every record has a non-zero company id and
    non-null description and group; every operation keeps this. *)
Theorem stored_names_invariant :
  (forall db, reachable db -> names_stripped db)
  /\ (forall op db, names_stripped db -> names_stripped (exec op db)).
Proof.
  split; [|exact exec_names_stripped].
  induction 1 as [|op db _ IH]; [split; constructor|].
  apply exec_names_stripped, IH.
Qed.

(** ** Relations and the records they join *)

Lemma owns_more t id db db' :
  incl (records db) (records db') -> owns t id db -> owns t id db'.
Proof. intros Hi (r & Hr & H). exists r. split; [apply Hi, Hr | exact H]. Qed.

Lemma exec_records_kept op db :
  is_seed op = false -> incl (records db) (records (exec op db)).
Proof.
  intros Hs. destruct op; simpl; try discriminate.
  - destruct (init_db_effect password_hash db) as [->|(u & -> & _)];
      apply incl_refl.
  - destruct (create_company_effect ss name street house_number postal_code
                city now db) as [->|(c & -> & _)]; apply incl_refl.
  - destruct (create_user_effect ss email password company_id0 is_superadmin0
                password_hash db) as [->|(u & -> & _)]; apply incl_refl.
  - destruct (create_record_effect ss name description group now db)
      as [->|(r & -> & _)]; [apply incl_refl|].
    simpl. apply incl_appl, incl_refl.
  - destruct (create_relation_effect ss a_id b_id now db)
      as [->|(rel & -> & _)]; apply incl_refl.
  - destruct (delete_relation_effect ss rel_id db) as [->|(p & ->)];
      apply incl_refl.
  - rewrite api_graph_readonly. apply incl_refl.
Qed.

Lemma stale_reachable : reachable Examples.stale.
Proof. apply reachable_run, reachable_empty. Qed.

(** X5: referential integrity of the relations. Every route keeps the
    property that both ends of every relation are records of the relation's
    company: records are never removed, and a relation is only added between
    two records of the caller's company. The seed script does not keep it:
    it removes the records and leaves the relations, so the program can
    produce a database with a relation whose ends belong to another
    company. *)
Theorem endpoints_owned_unless_seeded :
  (forall op db,
     is_seed op = false -> keyed db -> endpoints_owned db ->
     endpoints_owned (exec op db)
     /\ incl (records db) (records (exec op db)))
  /\ (exists db, reachable db /\ ~ endpoints_owned db).
Proof.
  split.
  - intros op db Hs Hk He.
    pose proof (exec_records_kept op db Hs) as Hi.
    split; [|exact Hi].
    unfold endpoints_owned in *.
    assert (Hold : Forall (fun r => owns (RecordRelation.company_id r)
                                      (RecordRelation.a_id r) (exec op db)
                                    /\ owns (RecordRelation.company_id r)
                                         (RecordRelation.b_id r) (exec op db))
                     (relations db)).
    { eapply Forall_impl; [|exact He]. simpl. intros r [Ha Hb].
      split; eapply owns_more; eauto. }
    destruct op; try discriminate; simpl in *.
    + destruct (init_db_effect password_hash db) as [E|(u & E & _)];
        rewrite E in *; exact Hold.
    + destruct (create_company_effect ss name street house_number postal_code
                  city now db) as [E|(c & E & _)]; rewrite E in *; exact Hold.
    + destruct (create_user_effect ss email password company_id0
                  is_superadmin0 password_hash db) as [E|(u & E & _)];
        rewrite E in *; exact Hold.
    + destruct (create_record_effect ss name description group now db)
        as [E|(r & E & _)]; rewrite E in *; exact Hold.
    + destruct (create_relation_row ss a_id b_id now db)
        as [E|(rel & E & _ & Hlt & _ & Hc)]; rewrite E in *; [exact Hold|].
      simpl. apply Forall_app. split; [exact Hold|].
      constructor; [|constructor].
      apply (count_records_two _ _ _ db Hk) in Hc; [|lia].
      destruct Hc as [Ha Hb]. split; eapply owns_more; eauto.
    + destruct (delete_relation_effect ss rel_id db) as [E|(p & E)];
        rewrite E in *; [exact Hold|].
      simpl. rewrite Forall_forall in *. intros r Hr. apply Hold.
      apply filter_In in Hr. tauto.
    + rewrite api_graph_readonly in *. exact Hold.
  - exists Examples.stale. split; [exact stale_reachable|].
    unfold endpoints_owned. intros H.
    assert (Hin : In (RecordRelation.mk 1 1 2 2 22)
                    (relations Examples.stale))
      by (vm_compute; left; reflexivity).
    rewrite Forall_forall in H. destruct (H _ Hin) as [(r & Hr & _ & Hc) _].
    vm_compute in Hr. simpl in Hc.
    destruct Hr as [<-|[<-|[]]]; discriminate Hc.
Qed.

(** ** The outcomes of [create_relation] *)

Lemma find_relation_none_iff lo hi t db :
  find_relation lo hi (Some t) db = None <-> ~ pair_stored_for t lo hi db.
Proof.
  unfold find_relation. rewrite hd_error_filter_none. split.
  - intros H (r & Hr & Ha & Hb & Hc). specialize (H r Hr).
    simpl in H. rewrite Ha, Hb, Hc, !Z.eqb_refl in H. discriminate.
  - intros H r Hr.
    destruct (_ && _) eqn:E; [|reflexivity]. exfalso. apply H.
    simpl in E. bool_hyps. exists r. auto.
Qed.

Lemma insert_relation_iff lo hi t now db :
  (pair_stored lo hi db -> insert_relation lo hi (Some t) now db = None)
  /\ (~ pair_stored lo hi db ->
      insert_relation lo hi (Some t) now db
      = Some (set_relations db
                (relations db
                 ++ [RecordRelation.mk
                       (next_rowid (map RecordRelation.id (relations db)))
                       lo hi t now]))).
Proof.
  unfold insert_relation. destruct (existsb _ _) eqn:E.
  - split; [reflexivity|]. intros H. exfalso. apply H.
    apply existsb_exists in E. destruct E as (r & Hr & E). bool_hyps.
    exists r. auto.
  - split; [|reflexivity]. intros (r & Hr & Ha & Hb).
    assert (existsb (fun r => (RecordRelation.a_id r =? lo)
                              && (RecordRelation.b_id r =? hi))
              (relations db) = true) as H.
    { apply existsb_exists. exists r. split; [exact Hr|].
      rewrite Ha, Hb, !Z.eqb_refl. reflexivity. }
    congruence.
Qed.

Lemma create_relation_fresh_pair ss t x y now db :
  company_user ss t db -> keyed db -> x <> y ->
  owns t x db -> owns t y db ->
  ~ pair_stored (Z.min x y) (Z.max x y) db ->
  create_relation ss (Parsed x) (Parsed y) now db
  = (created,
     set_relations db
       (relations db
        ++ [RecordRelation.mk
              (next_rowid (map RecordRelation.id (relations db)))
              (Z.min x y) (Z.max x y) t now])).
Proof.
  intros Hu Hk Hxy Hx Hy Hn.
  rewrite (create_relation_owned ss t db x y now Hu Hk Hxy Hx Hy).
  assert (Hf : find_relation (Z.min x y) (Z.max x y) (Some t) db = None).
  { apply find_relation_none_iff. intros (r & Hr & Ha & Hb & _).
    apply Hn. exists r. auto. }
  rewrite Hf, (proj2 (insert_relation_iff _ _ t now db) Hn). reflexivity.
Qed.

(** X6: the outcomes of [create_relation]. For a company user of [t] and
    two distinct records of [t], on a store with primary keys: the answer is
    [alreadyExists] when [t] has a relation with the canonical pair; it is
    [created], with one new row holding the canonical pair, the company
    [t], the next id and the clock reading, when no relation has the pair;
    and the request raises [IntegrityError], leaving the store as it was,
    when only another company has a relation with the pair. *)
Theorem create_relation_outcomes ss t x y now db :
  company_user ss t db -> keyed db -> x <> y ->
  owns t x db -> owns t y db ->
  (pair_stored_for t (Z.min x y) (Z.max x y) db ->
   create_relation ss (Parsed x) (Parsed y) now db = (alreadyExists, db))
  /\ (~ pair_stored (Z.min x y) (Z.max x y) db ->
      create_relation ss (Parsed x) (Parsed y) now db
      = (created,
         set_relations db
           (relations db
            ++ [RecordRelation.mk
                  (next_rowid (map RecordRelation.id (relations db)))
                  (Z.min x y) (Z.max x y) t now])))
  /\ (pair_stored (Z.min x y) (Z.max x y) db ->
      ~ pair_stored_for t (Z.min x y) (Z.max x y) db ->
      create_relation ss (Parsed x) (Parsed y) now db
      = (Raised IntegrityError, db)).
Proof.
  intros Hu Hk Hxy Hx Hy.
  pose proof (create_relation_owned ss t db x y now Hu Hk Hxy Hx Hy) as E.
  split; [|split].
  - intros Hs. rewrite E.
    destruct (find_relation _ _ _ _) eqn:Hf; [reflexivity|].
    apply find_relation_none_iff in Hf. contradiction.
  - intros Hn. apply create_relation_fresh_pair; assumption.
  - intros Hs Hn. rewrite E.
    rewrite (proj2 (find_relation_none_iff _ _ t db) Hn).
    rewrite (proj1 (insert_relation_iff _ _ t now db) Hs). reflexivity.
Qed.

(** ** Creating and deleting *)

Lemma create_relation_created ss t fa fb now db db1 :
  company_user ss t db ->
  create_relation ss fa fb now db = (created, db1) ->
  exists lo hi,
    db1 = set_relations db
            (relations db
             ++ [RecordRelation.mk
                   (next_rowid (map RecordRelation.id (relations db)))
                   lo hi t now])
    /\ lo < hi.
Proof.
  intros Hu. pose proof (company_user_logged_in _ _ _ Hu) as Hl.
  destruct fa as [| |x];
    try (unfold create_relation, login_required; rewrite Hl; discriminate).
  destruct fb as [| |y];
    try (unfold create_relation, login_required; rewrite Hl; discriminate).
  destruct (Z.eq_dec x y) as [->|Hxy].
  - unfold create_relation, login_required. rewrite Hl. simpl.
    rewrite Z.eqb_refl. discriminate.
  - rewrite (create_relation_company_user ss t db x y now Hu Hxy).
    destruct (negb (sqlite_integer _ _ && _)); [discriminate|].
    destruct (negb _); [discriminate|].
    destruct (find_relation _ _ _ _); [discriminate|].
    destruct (insert_relation _ _ _ _ _) as [db'|] eqn:E; [|discriminate].
    intros [= <-]. apply insert_relation_some in E.
    destruct E as (cid & [= <-] & ->).
    exists (Z.min x y), (Z.max x y). split; [reflexivity | lia].
Qed.

Lemma filter_below_snoc {A : Type} (key : A -> Z) (p : A -> bool)
    (l : list A) (x : A) :
  key x = next_rowid (map key l) ->
  (forall y, p y = true -> key y = key x) ->
  filter p l = [].
Proof.
  intros Hx Hp. apply filter_nil_iff. intros y Hy.
  destruct (p y) eqn:E; [|reflexivity]. apply Hp in E.
  pose proof (next_rowid_above (map key l)) as Ha.
  rewrite Forall_forall in Ha. specialize (Ha (key y) (in_map key _ _ Hy)).
  lia.
Qed.

Lemma filter_all {A : Type} (p : A -> bool) (l : list A) :
  (forall x, In x l -> p x = true) -> filter p l = l.
Proof.
  induction l as [|x l IH]; simpl; intros H; [reflexivity|].
  rewrite (H x (or_introl eq_refl)). f_equal. apply IH. auto.
Qed.

(** X7: deleting what was just created restores the store. When a company
    user's [create_relation] answers [created], the new relation has the
    next id of the table, and the same user's [delete_relation] of that id
    answers [deleted] and gives back exactly the store from before the
    creation. *)
Theorem create_then_delete_restores ss t fa fb now db db1 :
  company_user ss t db ->
  create_relation ss fa fb now db = (created, db1) ->
  let rel_id := next_rowid (map RecordRelation.id (relations db)) in
  (exists rel, relations db1 = relations db ++ [rel]
               /\ RecordRelation.id rel = rel_id
               /\ RecordRelation.company_id rel = t
               /\ RecordRelation.created_at rel = now)
  /\ delete_relation ss (Parsed rel_id) db1 = (deleted, db).
Proof.
  intros Hu Hc rel_id.
  destruct (create_relation_created ss t fa fb now db db1 Hu Hc)
    as (lo & hi & -> & _).
  clear Hc. fold rel_id.
  set (rel := RecordRelation.mk rel_id lo hi t now).
  split; [exists rel; repeat split|].
  assert (Hu1 : company_user ss t
                  (set_relations db (relations db ++ [rel]))) by exact Hu.
  rewrite (delete_relation_lookup ss t rel_id _ Hu1);
    [|apply (relation_id_stored _ rel), in_or_app; right; left; reflexivity].
  cbn [relations set_relations].
  rewrite filter_app.
  rewrite (filter_below_snoc RecordRelation.id _ (relations db) rel);
    [|reflexivity | intros r Hr; bool_hyps; assumption].
  cbn [filter app RecordRelation.id RecordRelation.company_id rel hd_error].
  rewrite !Z.eqb_refl.
  cbn [andb filter app RecordRelation.id RecordRelation.company_id rel
       hd_error].
  f_equal. rewrite filter_app.
  cbn [filter RecordRelation.id rel]. rewrite Z.eqb_refl.
  cbn [negb]. rewrite app_nil_r.
  rewrite filter_all; [unfold set_relations; simpl; apply db_eta|].
  intros r Hr.
  pose proof (next_rowid_above (map RecordRelation.id (relations db))) as Ha.
  rewrite Forall_forall in Ha.
  specialize (Ha _ (in_map RecordRelation.id _ _ Hr)).
  apply negb_true_iff, Z.eqb_neq. fold rel_id in Ha. lia.
Qed.

Lemma row_of_unique_image {A B : Type} (f : A -> B) (l : list A) (x y : A) :
  NoDup (map f l) -> f x = f y -> In x l -> In y l -> x = y.
Proof.
  intros Hn E. induction l as [|z l IH]; simpl; intros Hx Hy; [tauto|].
  inversion Hn as [|? ? Hz Hl]; subst.
  destruct Hx as [->|Hx], Hy as [->|Hy]; auto.
  - exfalso. apply Hz. rewrite E. apply in_map, Hy.
  - exfalso. apply Hz. rewrite <- E. apply in_map, Hx.
Qed.

Lemma filter_filter_absorb {A : Type} (p q : A -> bool) (l : list A) :
  (forall x, In x l -> p x = true -> q x = true) ->
  filter p (filter q l) = filter p l.
Proof.
  induction l as [|x l IH]; simpl; intros H; [reflexivity|].
  destruct (q x) eqn:Eq; simpl.
  - destruct (p x); [f_equal|]; apply IH; auto.
  - destruct (p x) eqn:Ep.
    + rewrite (H x (or_introl eq_refl) Ep) in Eq. discriminate.
    + apply IH. auto.
Qed.

Lemma delete_relation_found ss t rel db :
  company_user ss t db -> keyed db ->
  In rel (relations db) -> RecordRelation.company_id rel = t ->
  delete_relation ss (Parsed (RecordRelation.id rel)) db
  = (deleted,
     set_relations db
       (filter (fun r => negb (RecordRelation.id r =? RecordRelation.id rel))
          (relations db))).
Proof.
  intros Hu (_ & _ & _ & Hk) Hin Hc.
  rewrite (delete_relation_lookup ss t _ db Hu (relation_id_stored db rel Hin)).
  destruct (hd_error _) as [rel'|] eqn:E.
  - apply hd_error_filter in E. destruct E as [Hin' E]. bool_hyps.
    assert (rel' = rel)
      by (apply (key_unique RecordRelation.id (relations db)); auto).
    subst rel'. reflexivity.
  - exfalso. rewrite hd_error_filter_none in E. specialize (E rel Hin).
    rewrite Hc, !Z.eqb_refl in E. discriminate.
Qed.

(** X8: a deleted relation can be created again. On a store with primary
    keys and unique pairs, when a company user of [t] deletes a canonical
    relation of [t] whose ends are records of [t], the answer is [deleted],
    and the same user's request to relate the two records again, in either
    order, answers [created]. *)
Theorem deleted_relation_can_be_recreated ss t rel now db :
  company_user ss t db -> keyed db -> pairs_unique db ->
  In rel (relations db) ->
  RecordRelation.company_id rel = t ->
  RecordRelation.a_id rel < RecordRelation.b_id rel ->
  owns t (RecordRelation.a_id rel) db ->
  owns t (RecordRelation.b_id rel) db ->
  exists db1 db2,
    delete_relation ss (Parsed (RecordRelation.id rel)) db = (deleted, db1)
    /\ ~ In rel (relations db1)
    /\ create_relation ss (Parsed (RecordRelation.a_id rel))
         (Parsed (RecordRelation.b_id rel)) now db1 = (created, db2)
    /\ create_relation ss (Parsed (RecordRelation.b_id rel))
         (Parsed (RecordRelation.a_id rel)) now db1 = (created, db2).
Proof.
  intros Hu Hk Hp Hin Hc Hlt Ha Hb.
  set (db1 := set_relations db
                (filter (fun r => negb (RecordRelation.id r
                                        =? RecordRelation.id rel))
                   (relations db))).
  assert (Hu1 : company_user ss t db1) by exact Hu.
  assert (Hk1 : keyed db1).
  { destruct Hk as (H1 & H2 & H3 & H4). repeat split; try assumption.
    apply (ascending_filter RecordRelation.id). exact H4. }
  assert (Hn : ~ pair_stored (RecordRelation.a_id rel)
                 (RecordRelation.b_id rel) db1).
  { intros (r & Hr & Era & Erb). apply filter_In in Hr.
    destruct Hr as [Hr Hne]. bool_hyps. apply Hne. f_equal.
    apply (row_of_unique_image _ _ r rel Hp); [cbv beta; congruence | |];
      assumption. }
  pose proof (create_relation_fresh_pair ss t (RecordRelation.a_id rel)
                (RecordRelation.b_id rel) now db1 Hu1 Hk1) as E1.
  pose proof (create_relation_fresh_pair ss t (RecordRelation.b_id rel)
                (RecordRelation.a_id rel) now db1 Hu1 Hk1) as E2.
  rewrite Z.min_l, Z.max_r in E1 by lia.
  rewrite Z.min_r, Z.max_l in E2 by lia.
  exists db1. eexists.
  split; [apply (delete_relation_found ss t rel db); assumption|].
  split.
  - intros H. apply filter_In in H. destruct H as [_ H].
    rewrite Z.eqb_refl in H. discriminate.
  - split; [apply E1 | apply E2]; try assumption; lia.
Qed.

(** ** Requests of one company and the rows of another *)

Lemma create_record_company_user ss t n d g now db :
  company_user ss t db ->
  create_record ss n d g now db
  = if PyStr.is_empty (form_text n) then (ValidationError, db)
    else (Redirect (Some RecordCreated) ep_records,
          set_records db
            (records db
             ++ [Record_.mk (next_rowid (map Record_.id (records db))) t
                   (form_text n) (Some (form_text d)) (Some (form_text g))
                   now])).
Proof.
  intros Hu. pose proof (company_user_logged_in _ _ _ Hu) as Hl.
  destruct Hu as (u & Hu & Hs & Hc & Ht).
  unfold create_record, login_required. rewrite Hl. simpl.
  destruct (PyStr.is_empty (form_text n)); [reflexivity|].
  rewrite (session_user_some _ _ _ Hu), Hs, Hc, (truthy_some t Ht). reflexivity.
Qed.

Lemma create_relation_company_effect ss t fa fb now db :
  company_user ss t db ->
  let db' := snd (create_relation ss fa fb now db) in
  db' = db
  \/ exists lo hi,
       db' = set_relations db
               (relations db
                ++ [RecordRelation.mk
                      (next_rowid (map RecordRelation.id (relations db)))
                      lo hi t now]).
Proof.
  intros Hu. pose proof (company_user_logged_in _ _ _ Hu) as Hl.
  destruct fa as [| |x];
    try (unfold create_relation, login_required; rewrite Hl; left;
         reflexivity).
  destruct fb as [| |y];
    try (unfold create_relation, login_required; rewrite Hl; left;
         reflexivity).
  destruct (Z.eq_dec x y) as [->|Hxy].
  - unfold create_relation, login_required. rewrite Hl. simpl.
    rewrite Z.eqb_refl. left. reflexivity.
  - rewrite (create_relation_company_user ss t db x y now Hu Hxy).
    destruct (negb (sqlite_integer _ _ && _)); [left; reflexivity|].
    destruct (negb _); [left; reflexivity|].
    destruct (find_relation _ _ _ _); [left; reflexivity|].
    destruct (insert_relation _ _ _ _ _) as [db'|] eqn:E;
      [|left; reflexivity].
    apply insert_relation_some in E. destruct E as (cid & [= <-] & ->).
    right. exists (Z.min x y), (Z.max x y). reflexivity.
Qed.

Lemma untouched_refl A db : untouched A db db.
Proof. repeat split. Qed.

(** X9: writes stay in the caller's company. Whatever a company user of
    [B] sends to [create_record], [create_relation] or [delete_relation], on
    a store with primary keys the companies, the users and the records and
    relations of every other company [A] are left exactly as they were, and
    so is the graph [getGraph] computes for [A]. *)
Theorem writes_stay_in_tenant ss B A db :
  company_user ss B db -> keyed db -> A <> B ->
  (forall n d g now, untouched A db (snd (create_record ss n d g now db)))
  /\ (forall fa fb now,
        untouched A db (snd (create_relation ss fa fb now db)))
  /\ (forall fr, untouched A db (snd (delete_relation ss fr db)))
  /\ (forall db' now_ts,
        untouched A db db' ->
        graph_of (Some A) now_ts db' = graph_of (Some A) now_ts db).
Proof.
  intros Hu Hk HAB.
  assert (HBA : (B =? A) = false) by (apply Z.eqb_neq; congruence).
  split; [|split; [|split]].
  - intros n d g now. rewrite (create_record_company_user ss B n d g now db Hu).
    destruct (PyStr.is_empty _); [apply untouched_refl|].
    unfold untouched, tenant_records, list_relations. simpl.
    rewrite filter_app. simpl. rewrite HBA, app_nil_r. repeat split.
  - intros fa fb now.
    destruct (create_relation_company_effect ss B fa fb now db Hu)
      as [->|(lo & hi & ->)]; [apply untouched_refl|].
    unfold untouched, tenant_records, list_relations. simpl.
    rewrite filter_app. simpl. rewrite HBA, app_nil_r. repeat split.
  - intros fr. pose proof (company_user_logged_in _ _ _ Hu) as Hl.
    destruct fr as [| |k];
      try (unfold delete_relation, login_required; rewrite Hl;
           apply untouched_refl).
    rewrite (delete_relation_company_user ss B k db Hu).
    destruct (negb (sqlite_integer db k)); [apply untouched_refl|].
    destruct (hd_error _) as [rel|] eqn:E; [|apply untouched_refl].
    apply hd_error_filter in E. destruct E as [Hin E]. bool_hyps.
    unfold untouched, tenant_records, list_relations. simpl.
    repeat split. apply filter_filter_absorb.
    intros r Hr Hc. bool_hyps. apply negb_true_iff, Z.eqb_neq. intros Hid.
    destruct Hk as (_ & _ & _ & Hk).
    assert (r = rel)
      by (apply (key_unique RecordRelation.id (relations db)); auto).
    subst r. congruence.
  - intros db' now_ts (_ & _ & Hr & Hl).
    unfold tenant_records in Hr. unfold list_relations in Hl.
    unfold graph_of. rewrite Hr, Hl. reflexivity.
Qed.

(** X10: what was created shows up in the caller's graph. After a company
    user of [t] created a record, the graph of [t] has one more node, the
    last one, with the next id and the stripped name, description and group,
    and the same edges; after [create_relation] answered [created], it has
    one more edge, the last one, with [a < b], and the same nodes. *)
Theorem created_rows_appear_in_graph ss t now_ts db :
  company_user ss t db ->
  (forall n d g now,
     PyStr.strip (PyStr.or_empty n) <> [] ->
     graph_of (Some t) now_ts (snd (create_record ss n d g now db))
     = mkGraph
         (nodes (graph_of (Some t) now_ts db)
          ++ [mkNode (next_rowid (map Record_.id (records db)))
                (PyStr.strip (PyStr.or_empty n))
                (PyStr.strip (PyStr.or_empty d))
                (PyStr.strip (PyStr.or_empty g))])
         (edges (graph_of (Some t) now_ts db)) (Some t) now_ts)
  /\ (forall fa fb now db1,
        create_relation ss fa fb now db = (created, db1) ->
        exists lo hi,
          lo < hi
          /\ graph_of (Some t) now_ts db1
             = mkGraph (nodes (graph_of (Some t) now_ts db))
                 (edges (graph_of (Some t) now_ts db) ++ [mkEdge lo hi])
                 (Some t) now_ts).
Proof.
  intros Hu. split.
  - intros n d g now Hn.
    rewrite (create_record_company_user ss t n d g now db Hu).
    unfold form_text.
    destruct (PyStr.is_empty _) eqn:E;
      [apply PyStrFacts.is_empty_nil in E; contradiction|].
    unfold graph_of. simpl. rewrite filter_app, map_app. simpl.
    rewrite Z.eqb_refl. reflexivity.
  - intros fa fb now db1 Hc.
    destruct (create_relation_created ss t fa fb now db db1 Hu Hc)
      as (lo & hi & -> & Hlt).
    exists lo, hi. split; [exact Hlt|].
    unfold graph_of. simpl. rewrite filter_app, map_app. simpl.
    rewrite Z.eqb_refl. reflexivity.
Qed.

(** ** Access to the routes *)

(** X11: nothing happens without a login. For a session whose [user_id] is
    missing or 0, every route behind [login_required] answers with the
    redirect to the login page, before it looks at any request parameter,
    and leaves the store as it was; [index] sends such a session to the
    login page too. *)
Theorem login_is_required ss db :
  truthy (user_id ss) = false ->
  (forall n d g now,
     create_record ss n d g now db = (Redirect None ep_login, db))
  /\ (forall fa fb now,
        create_relation ss fa fb now db = (Redirect None ep_login, db))
  /\ (forall fr, delete_relation ss fr db = (Redirect None ep_login, db))
  /\ (forall c now_ts, api_graph ss c now_ts db = (Redirect None ep_login, db))
  /\ records_view ss db = Goto None ep_login
  /\ (forall c, live ss c db = Goto None ep_login)
  /\ index ss = Goto None ep_login
  /\ current_user ss db = None.
Proof.
  intros H.
  unfold create_record, create_relation, delete_relation, api_graph,
    records_view, live, index, login_required, login_required_page.
  rewrite H. simpl. repeat split.
  unfold current_user, truthy in *. destruct (user_id ss) as [uid|]; auto.
  bool_hyps. apply Z.eqb_eq in H. rewrite H. reflexivity.
Qed.

(** X12: the admin routes need the super admin flag of the session. For a
    session that is not logged in or does not carry the flag,
    [create_company] and [create_user] answer "not authorized", redirect to
    [index] and leave the store as it was, and the [admin] page is not
    rendered. *)
Theorem superadmin_is_required ss db :
  truthy (user_id ss) = false \/ is_superadmin ss = false ->
  (forall n s h p c now,
     create_company ss n s h p c now db
     = (Redirect (Some NotAuthorized) ep_index, db))
  /\ (forall e p c s h,
        create_user ss e p c s h db
        = (Redirect (Some NotAuthorized) ep_index, db))
  /\ admin ss db = Goto (Some (Told NotAuthorized)) ep_index.
Proof.
  intros H.
  assert (Hg : negb (truthy (user_id ss)) || negb (is_superadmin ss) = true).
  { destruct H as [-> | ->]; [reflexivity | apply orb_true_r]. }
  unfold create_company, create_user, admin, superadmin_required,
    superadmin_required_page.
  rewrite Hg. repeat split.
Qed.

(** X13: the answers of [api_graph]. It never changes the store, and it
    answers with the login redirect, an [OverflowError] (an integer SQLite
    cannot hold was bound), an [AttributeError] (no user row for the
    session), the status 400 or the JSON graph, nothing else. For a super
    admin the answer is 400 exactly when the [company_id] parameter is
    missing, not a number or 0; for a non-zero id within SQLite's 64-bit
    integer range it is the graph of the named company, whether or not such
    a company exists; for an id SQLite cannot hold it is [OverflowError]. *)
Theorem api_graph_answers ss c now_ts db :
  snd (api_graph ss c now_ts db) = db
  /\ (fst (api_graph ss c now_ts db) = Redirect None ep_login
      \/ fst (api_graph ss c now_ts db) = Raised OverflowError
      \/ fst (api_graph ss c now_ts db) = Raised AttributeError
      \/ fst (api_graph ss c now_ts db) = JsonError400
      \/ exists cid,
           fst (api_graph ss c now_ts db) = Json (graph_of cid now_ts db))
  /\ (forall u,
        current_user ss db = Some u -> User.is_superadmin u = true ->
        (fst (api_graph ss c now_ts db) = JsonError400
         <-> (c = Missing \/ c = Malformed \/ c = Parsed 0))
        /\ (forall n, c = Parsed n -> n <> 0 -> int64 n = true ->
              fst (api_graph ss c now_ts db)
              = Json (graph_of (Some n) now_ts db))
        /\ (forall n, c = Parsed n -> n <> 0 ->
              sqlite_integer db n = false ->
              fst (api_graph ss c now_ts db) = Raised OverflowError)).
Proof.
  split; [apply api_graph_readonly|]. split.
  - unfold api_graph, login_required.
    destruct (negb _); [left; reflexivity|].
    destruct (session_user ss db) as [e|[u|]] eqn:Hu;
      [right; left | | right; right; left; reflexivity].
    { rewrite (session_user_raises ss db e Hu). reflexivity. }
    destruct (negb (User.is_superadmin u));
      [do 4 right; eexists; reflexivity|].
    destruct (negb (truthy (get_int c)));
      [do 3 right; left; reflexivity|].
    destruct (negb _); [right; left; reflexivity|].
    do 4 right. eexists. reflexivity.
  - intros u Hu Hs. unfold api_graph, login_required.
    rewrite (current_user_logged_in _ _ _ Hu), (session_user_some _ _ _ Hu),
      Hs.
    cbn [negb fst]. split; [|split].
    + destruct c as [| |n]; cbn [get_int truthy negb fst].
      * split; auto.
      * split; auto.
      * destruct (n =? 0) eqn:E; cbn [negb fst]; bool_hyps.
        -- subst n. split; auto.
        -- split.
           ++ destruct (negb (sqlite_integer db n)); discriminate.
           ++ intros [H|[H|H]]; try discriminate. congruence.
    + intros n -> Hn Hq. cbn [get_int truthy]. apply Z.eqb_neq in Hn.
      rewrite Hn. cbn [negb]. rewrite (int64_sqlite_integer db n Hq).
      reflexivity.
    + intros n -> Hn Hq. cbn [get_int truthy]. apply Z.eqb_neq in Hn.
      rewrite Hn. cbn [negb]. rewrite Hq. reflexivity.
Qed.

Lemma NoDup_map_coarser {A B C : Type} (f : A -> B) (g : A -> C)
    (l : list A) :
  (forall x y, g x = g y -> f x = f y) ->
  NoDup (map f l) -> NoDup (map g l).
Proof.
  intros Hfg. induction l as [|x l IH]; simpl; intros H; [constructor|].
  inversion H as [|? ? Hx Hl]; subst. constructor; [|auto].
  intros Hin. apply Hx. apply in_map_iff in Hin.
  destruct Hin as (y & E & Hy). rewrite <- (Hfg _ _ E). apply in_map, Hy.
Qed.

(** X14: the order of the graph. On a store with primary keys the nodes of
    the graph come by strictly ascending id, so no node appears twice; on a
    store with unique pairs no edge appears twice. *)
Theorem api_graph_order ss c now_ts db g :
  keyed db -> pairs_unique db ->
  fst (api_graph ss c now_ts db) = Json g ->
  ascending (map node_id (nodes g))
  /\ NoDup (nodes g)
  /\ NoDup (edges g).
Proof.
  intros Hk Hp Hg. apply api_graph_json in Hg. destruct Hg as [cid ->].
  assert (Ha : ascending (map node_id (nodes (graph_of cid now_ts db)))).
  { unfold graph_of. simpl. rewrite map_map. simpl.
    apply (ascending_filter Record_.id). apply Hk. }
  split; [exact Ha|]. split.
  - apply (NoDup_map_inv node_id), ascending_NoDup, Ha.
  - unfold graph_of. simpl.
    apply (NoDup_map_coarser
             (fun r => (RecordRelation.a_id r, RecordRelation.b_id r))).
    + intros x y [= Ea Eb]. congruence.
    + apply unique_image_filter. exact Hp.
Qed.

(** ** The admin operations *)

Lemma pystr_eqb_refl (s : str) : PyStr.eqb s s = true.
Proof. apply pystr_eqb_eq. reflexivity. Qed.

Lemma email_taken_iff e db :
  existsb (fun u => PyStr.eqb (User.email u) e) (users db) = true
  <-> exists v, In v (users db) /\ User.email v = e.
Proof.
  rewrite existsb_exists. split; intros (v & Hv & E); exists v;
    (split; [exact Hv | apply pystr_eqb_eq, E]).
Qed.

(** X15: [init_db] is idempotent. Running it again, with whatever password
    hash, changes nothing; afterwards a user with the initial admin e-mail
    exists; the users that were there are kept as they are, in particular a
    user that already has that e-mail keeps its password and its rights; the
    other tables are not touched; and when no user had the e-mail, the new
    row is a super admin without a company. *)
Theorem init_db_idempotent h h' db :
  init_db h' (init_db h db) = init_db h db
  /\ (exists u, In u (users (init_db h db))
                /\ User.email u = INITIAL_ADMIN_EMAIL)
  /\ (exists added, users (init_db h db) = users db ++ added)
  /\ companies (init_db h db) = companies db
  /\ records (init_db h db) = records db
  /\ relations (init_db h db) = relations db
  /\ ((forall v, In v (users db) -> User.email v <> INITIAL_ADMIN_EMAIL) ->
      users (init_db h db)
      = users db ++ [User.mk (next_rowid (map User.id (users db)))
                       INITIAL_ADMIN_EMAIL h true None]).
Proof.
  unfold init_db, insert_user.
  destruct (existsb _ (users db)) eqn:E.
  - rewrite E. split; [reflexivity|]. split.
    + apply email_taken_iff in E. exact E.
    + split; [exists []; symmetry; apply app_nil_r|].
      repeat split. intros Hn. apply email_taken_iff in E.
      destruct E as (v & Hv & Ev). exfalso. exact (Hn v Hv Ev).
  - cbn [users set_users].
    rewrite existsb_app. cbn [existsb User.email].
    rewrite pystr_eqb_refl, orb_true_r.
    split; [reflexivity|]. split.
    + eexists. split; [apply in_or_app; right; left; reflexivity|].
      reflexivity.
    + split; [eexists; reflexivity|]. repeat split.
Qed.

(** X16: [create_company] for a super admin session. The answer is "name
    required" exactly when the name is empty after stripping, and then
    nothing is stored; otherwise one company is appended, with the next id,
    the stripped name and address fields and the clock reading, and nothing
    else changes. *)
Theorem create_company_validation ss n s h p c now db :
  truthy (user_id ss) = true -> is_superadmin ss = true ->
  (fst (create_company ss n s h p c now db)
   = Redirect (Some CompanyNameRequired) ep_admin
   <-> PyStr.strip (PyStr.or_empty n) = [])
  /\ (PyStr.strip (PyStr.or_empty n) = [] ->
      snd (create_company ss n s h p c now db) = db)
  /\ (PyStr.strip (PyStr.or_empty n) <> [] ->
      create_company ss n s h p c now db
      = (Redirect (Some CompanyCreated) ep_admin,
         set_companies db
           (companies db
            ++ [Company.mk (next_rowid (map Company.id (companies db)))
                  (PyStr.strip (PyStr.or_empty n))
                  (Some (PyStr.strip (PyStr.or_empty s)))
                  (Some (PyStr.strip (PyStr.or_empty h)))
                  (Some (PyStr.strip (PyStr.or_empty p)))
                  (Some (PyStr.strip (PyStr.or_empty c)))
                  now]))).
Proof.
  intros Hl Hs.
  unfold create_company, superadmin_required, insert_company, form_text.
  rewrite Hl, Hs. simpl.
  destruct (PyStr.strip (PyStr.or_empty n)) as [|ch r] eqn:E; simpl.
  - split; [tauto|]. split; [reflexivity | congruence].
  - split; [split; discriminate|]. split; [discriminate | reflexivity].
Qed.

(** X17: the outcomes of [create_user] for a super admin session, with a
    non-empty e-mail and password. A user that is not to be a super admin
    needs a company id that is a number, and its absence is reported before
    the e-mail is looked up; an e-mail that a user already has is refused;
    in both cases nothing is stored. Otherwise, a super admin user is
    appended without a company, whatever the form named; any other user is
    appended with the company id of the form when that is within SQLite's
    64-bit integer range, without a look at the company table; and when the
    company id is an integer SQLite cannot hold, the commit raises
    [OverflowError] and nothing is stored. An appended user has the next id
    and the given hash. *)
Theorem create_user_outcomes ss e p c s h db :
  truthy (user_id ss) = true -> is_superadmin ss = true ->
  e <> [] -> PyStr.or_empty p <> [] ->
  let sa := negb (PyStr.is_empty (PyStr.or_empty s)) in
  let taken := exists v, In v (users db) /\ User.email v = e in
  (sa = false -> get_int c = None ->
   create_user ss e p c s h db = (Redirect (Some ChooseCompany) ep_admin, db))
  /\ (sa = true \/ get_int c <> None -> taken ->
      create_user ss e p c s h db = (Redirect (Some EmailTaken) ep_admin, db))
  /\ (sa = true -> ~ taken ->
      create_user ss e p c s h db
      = (Redirect (Some UserCreated) ep_admin,
         set_users db
           (users db
            ++ [User.mk (next_rowid (map User.id (users db))) e h true
                  None])))
  /\ (sa = false -> forall n, get_int c = Some n -> ~ taken ->
      (int64 n = true ->
       create_user ss e p c s h db
       = (Redirect (Some UserCreated) ep_admin,
          set_users db
            (users db
             ++ [User.mk (next_rowid (map User.id (users db))) e h false
                   (Some n)])))
      /\ (sqlite_integer db n = false ->
          create_user ss e p c s h db = (Raised OverflowError, db))).
Proof.
  intros Hl Hs He Hp sa taken.
  unfold create_user, superadmin_required, insert_user.
  rewrite Hl, Hs. cbn [negb orb]. fold sa.
  destruct e as [|ch e']; [congruence|].
  destruct (PyStr.or_empty p) as [|ch' p'] eqn:Ep; [congruence|].
  cbn [PyStr.is_empty orb].
  destruct (existsb (fun u => PyStr.eqb (User.email u) (ch :: e')) (users db))
    eqn:Ex.
  - assert (Ht : taken) by (apply email_taken_iff, Ex).
    destruct sa.
    + split; [discriminate|]. split; [reflexivity|].
      split; [contradiction | discriminate].
    + destruct c as [| |k]; cbn [py_int get_int].
      * split; [reflexivity|]. split; [intros [H|H]; congruence|].
        split; discriminate.
      * split; [reflexivity|]. split; [intros [H|H]; congruence|].
        split; discriminate.
      * split; [discriminate|]. split; [reflexivity|].
        split; [discriminate | contradiction].
  - assert (Ht : ~ taken).
    { intros H. apply email_taken_iff in H. congruence. }
    destruct sa.
    + split; [discriminate|]. split; [contradiction|].
      split; [reflexivity | discriminate].
    + destruct c as [| |k]; cbn [py_int get_int].
      * split; [reflexivity|]. split; [intros [H|H]; congruence|].
        split; discriminate.
      * split; [reflexivity|]. split; [intros [H|H]; congruence|].
        split; discriminate.
      * split; [discriminate|]. split; [contradiction|].
        split; [discriminate|]. intros _ n [= <-] _. split; intros Hq.
        -- rewrite (int64_sqlite_integer db k Hq). reflexivity.
        -- rewrite Hq. reflexivity.
Qed.

Lemma session_user_overflow ss db e :
  session_user ss db = inl e ->
  e = OverflowError
  /\ exists uid, user_id ss = Some uid /\ sqlite_integer db uid = false.
Proof.
  intros H. split; [apply (session_user_raises ss db e H)|].
  unfold session_user in H. destruct (user_id ss) as [uid|]; [|discriminate].
  destruct (uid =? 0); [discriminate|].
  destruct (sqlite_integer db uid) eqn:E; [discriminate|].
  exists uid. split; [reflexivity | exact E].
Qed.

(** X18: the exceptions of the routes, for requests whose ids are numbers.
    [create_company] never raises. [create_user] raises only
    [OverflowError], and only for a company id SQLite cannot hold. The
    other routes raise [AttributeError] only when the session names a user
    that has no row, and [OverflowError] only when the session's user id or
    an id of the request is an integer SQLite cannot hold;
    [create_relation] raises [IntegrityError] besides, and only when some
    relation already has the canonical pair. No route raises anything
    else. *)
Theorem exceptions_of_the_routes ss db exn :
  let no_row := exn = AttributeError /\ current_user ss db = None in
  let session_overflows :=
    exn = OverflowError
    /\ exists uid, user_id ss = Some uid /\ sqlite_integer db uid = false in
  (forall n s h p c now,
     fst (create_company ss n s h p c now db) <> Raised exn)
  /\ (forall e p c s h,
        fst (create_user ss e p c s h db) = Raised exn ->
        exn = OverflowError
        /\ exists n, c = Parsed n /\ sqlite_integer db n = false)
  /\ (forall n d g now,
        fst (create_record ss n d g now db) = Raised exn ->
        no_row \/ session_overflows)
  /\ (forall k,
        fst (delete_relation ss (Parsed k) db) = Raised exn ->
        no_row \/ session_overflows
        \/ (exn = OverflowError /\ sqlite_integer db k = false))
  /\ (forall x y now,
        fst (create_relation ss (Parsed x) (Parsed y) now db) = Raised exn ->
        no_row \/ session_overflows
        \/ (exn = OverflowError
            /\ (sqlite_integer db x = false \/ sqlite_integer db y = false))
        \/ (exn = IntegrityError
            /\ pair_stored (Z.min x y) (Z.max x y) db)).
Proof.
  intros no_row session_overflows.
  split; [|split; [|split; [|split]]].
  - intros n s h p c now. unfold create_company, superadmin_required.
    repeat break_if; simpl; discriminate.
  - intros e p c s h. unfold create_user, superadmin_required, insert_user.
    destruct (_ || _); [simpl; discriminate|].
    destruct (_ || _); [simpl; discriminate|].
    destruct (negb (PyStr.is_empty (PyStr.or_empty s))).
    + destruct (existsb _ _); simpl; discriminate.
    + destruct c as [| |k]; cbn [py_int]; try (simpl; discriminate).
      destruct (existsb _ _); [simpl; discriminate|].
      destruct (sqlite_integer db k) eqn:Hq; cbn [negb fst];
        [discriminate|].
      intros [= <-]. split; [reflexivity|]. exists k. auto.
  - intros n d g now. unfold create_record, login_required, insert_record.
    destruct (negb _); [simpl; discriminate|].
    destruct (PyStr.is_empty _); [simpl; discriminate|].
    destruct (session_user ss db) as [e|[u|]] eqn:Hu; cbn [fst].
    + intros [= <-]. right. apply (session_user_overflow ss db e Hu).
    + destruct (_ || _) eqn:Hg; [simpl; discriminate|].
      destruct (User.company_id u); [simpl; discriminate|].
      simpl in Hg. rewrite orb_true_r in Hg. discriminate.
    + intros [= <-]. left. split; [reflexivity|].
      apply session_user_none, Hu.
  - intros k. unfold delete_relation, login_required.
    destruct (negb _); [simpl; discriminate|]. cbn [py_int].
    destruct (session_user ss db) as [e|[u|]] eqn:Hu; cbn [fst].
    + intros [= <-]. right. left. apply (session_user_overflow ss db e Hu).
    + destruct (_ || _); [simpl; discriminate|].
      destruct (sqlite_integer db k) eqn:Hq; cbn [negb].
      * destruct (hd_error _); simpl; discriminate.
      * cbn [fst]. intros [= <-]. right. right. auto.
    + intros [= <-]. left. split; [reflexivity|].
      apply session_user_none, Hu.
  - intros x y now. unfold create_relation, login_required.
    destruct (negb _); [simpl; discriminate|]. cbn [py_int].
    destruct (x =? y); [simpl; discriminate|].
    destruct (session_user ss db) as [e|[u|]] eqn:Hu; cbn [fst].
    + intros [= <-]. right. left. apply (session_user_overflow ss db e Hu).
    + destruct (_ || _) eqn:Hg; [simpl; discriminate|].
      destruct (negb (sqlite_integer db x && sqlite_integer db y)) eqn:Hq.
      * cbn [fst]. intros [= <-]. right. right. left.
        split; [reflexivity|].
        apply negb_true_iff, andb_false_iff in Hq. exact Hq.
      * destruct (negb (Nat.eqb _ 2)); [simpl; discriminate|].
        rewrite normalized_pair_min_max.
        destruct (find_relation _ _ _ _); [simpl; discriminate|].
        destruct (User.company_id u) as [cid|] eqn:Hc;
          [|simpl in Hg; rewrite orb_true_r in Hg; discriminate].
        unfold insert_relation.
        destruct (existsb _ _) eqn:E; [|simpl; discriminate].
        cbn [fst]. intros [= <-]. do 3 right. split; [reflexivity|].
        apply existsb_exists in E. destruct E as (r & Hr & E). bool_hyps.
        exists r. auto.
    + intros [= <-]. left. split; [reflexivity|].
      apply session_user_none, Hu.
Qed.

(** X19: the seed script resets companies and records only. Whatever the
    database held, afterwards there is exactly the company 1 and its
    records 1 and 2; users and relations are left as they were, so a user
    or a relation may then point at a company or record that is gone; and
    running the script again gives the same tables, up to the clock
    readings. *)
Theorem seed_resets_companies_and_records t0 t1 t2 s0 s1 s2 db :
  seed t0 t1 t2 (seed s0 s1 s2 db) = seed t0 t1 t2 db
  /\ users (seed t0 t1 t2 db) = users db
  /\ relations (seed t0 t1 t2 db) = relations db
  /\ companies (seed t0 t1 t2 db) = companies (seed t0 t1 t2 empty_db)
  /\ records (seed t0 t1 t2 db) = records (seed t0 t1 t2 empty_db)
  /\ map Company.id (companies (seed t0 t1 t2 db)) = [1]
  /\ map (fun r => (Record_.id r, Record_.company_id r, Record_.created_at r))
       (records (seed t0 t1 t2 db))
     = [(1, 1, t1); (2, 1, t2)]
  /\ (forall t id, owns t id (seed t0 t1 t2 db) <->
                   t = 1 /\ (id = 1 \/ id = 2)).
Proof.
  do 7 (split; [reflexivity|]).
  intros t id. split.
  - intros (r & [<-|[<-|[]]] & <- & <-); simpl; auto.
  - intros (-> & [->| ->]).
    + eexists. split; [left; reflexivity|]. split; reflexivity.
    + eexists. split; [right; left; reflexivity|]. split; reflexivity.
Qed.

(** ** The page routes *)

Section Ordering.
Context {A : Type} (key : A -> Z).

Lemma insert_desc_perm (x : A) (l : list A) :
  Permutation (insert_desc key x l) (x :: l).
Proof.
  induction l as [|y l IH]; simpl; [reflexivity|].
  destruct (key y <=? key x); [reflexivity|].
  rewrite IH. apply perm_swap.
Qed.

Lemma order_by_desc_perm (l : list A) : Permutation (order_by_desc key l) l.
Proof.
  induction l as [|x l IH]; simpl; [constructor|].
  rewrite insert_desc_perm. constructor. exact IH.
Qed.

Lemma insert_desc_sorted (x : A) (l : list A) :
  StronglySorted (fun r1 r2 => key r2 <= key r1) l ->
  StronglySorted (fun r1 r2 => key r2 <= key r1) (insert_desc key x l).
Proof.
  induction 1 as [|y l Hs IH Hy]; simpl; [repeat constructor|].
  destruct (key y <=? key x) eqn:E.
  - apply Z.leb_le in E. constructor; [constructor; assumption|].
    constructor; [exact E|].
    eapply Forall_impl; [|exact Hy]. simpl. intros; lia.
  - apply Z.leb_gt in E. constructor; [exact IH|].
    apply (Permutation_Forall (Permutation_sym (insert_desc_perm x l))).
    constructor; [lia | exact Hy].
Qed.

Lemma order_by_desc_sorted (l : list A) :
  StronglySorted (fun r1 r2 => key r2 <= key r1) (order_by_desc key l).
Proof.
  induction l as [|x l IH]; simpl; [constructor|].
  apply insert_desc_sorted, IH.
Qed.

Lemma insert_desc_last (x : A) (l : list A) :
  Forall (fun y => key x < key y) l -> insert_desc key x l = l ++ [x].
Proof.
  induction 1 as [|y l Hy _ IH]; simpl; [reflexivity|].
  destruct (key y <=? key x) eqn:E; [apply Z.leb_le in E; lia|].
  rewrite IH. reflexivity.
Qed.

Lemma order_by_desc_ascending (l : list A) :
  ascending (map key l) -> order_by_desc key l = rev l.
Proof.
  unfold ascending. induction l as [|x l IH]; simpl; intros H;
    [reflexivity|].
  inversion H as [|? ? Hs Hx]; subst. rewrite (IH Hs).
  apply insert_desc_last. apply Forall_rev.
  rewrite Forall_map in Hx. exact Hx.
Qed.

End Ordering.

Lemma find_company_some c cid db :
  find_company cid db = Some c ->
  In c (companies db) /\ Some (Company.id c) = cid.
Proof.
  unfold find_company. intros H. apply hd_error_filter in H.
  destruct H as [Hin E]. split; [exact Hin|].
  destruct cid as [n|]; simpl in E; [|discriminate].
  apply Z.eqb_eq in E. congruence.
Qed.

Lemma find_company_none cid db :
  find_company cid db = None <->
  (forall c, In c (companies db) -> Some (Company.id c) <> cid).
Proof.
  unfold find_company. rewrite hd_error_filter_none. split.
  - intros H c Hc E. specialize (H c Hc). rewrite <- E in H. simpl in H.
    rewrite Z.eqb_refl in H. discriminate.
  - intros H c Hc. destruct cid as [n|]; [|reflexivity]. simpl.
    apply Z.eqb_neq. intros E. apply (H c Hc). congruence.
Qed.

(** X20: the [records] page shows the caller's company only. A super admin
    is sent to the admin page. Any other user gets the company row with the
    id of its company (none when the company is gone), the records of that
    company, every one of them once, by descending creation time, and the
    relations of that company in table order. *)
Theorem records_view_scoped ss u db :
  current_user ss db = Some u ->
  (User.is_superadmin u = true ->
   records_view ss db = Goto (Some SuperAdminUseLive) ep_admin)
  /\ (User.is_superadmin u = false ->
      exists recs,
        records_view ss db
        = RecordsPage (find_company (User.company_id u) db) recs
            (list_relations (User.company_id u) db)
        /\ Permutation recs (tenant_records (User.company_id u) db)
        /\ StronglySorted
             (fun r1 r2 => Record_.created_at r2 <= Record_.created_at r1)
             recs
        /\ (forall r, In r recs <->
                      In r (records db)
                      /\ Some (Record_.company_id r) = User.company_id u)
        /\ (forall r, In r (list_relations (User.company_id u) db) ->
                      Some (RecordRelation.company_id r)
                      = User.company_id u)).
Proof.
  intros Hu. pose proof (current_user_logged_in _ _ _ Hu) as Hl.
  unfold records_view, login_required_page. rewrite Hl, (session_user_some _ _ _ Hu). simpl.
  split; intros Hs; rewrite Hs; [reflexivity|].
  eexists. split; [reflexivity|].
  split; [apply order_by_desc_perm|].
  split; [apply order_by_desc_sorted|]. split.
  - intros r.
    assert (Hiff : In r (order_by_desc Record_.created_at
                           (filter (fun r => eq_col (Record_.company_id r)
                                               (User.company_id u))
                              (records db)))
                   <-> In r (filter (fun r => eq_col (Record_.company_id r)
                                                (User.company_id u))
                               (records db))).
    { split; apply Permutation_in;
        [|apply Permutation_sym]; apply order_by_desc_perm. }
    rewrite Hiff, filter_In.
    destruct (User.company_id u) as [cid|]; simpl.
    + rewrite Z.eqb_eq. split; intros [H1 H2]; split; congruence.
    + split; intros [_ H]; discriminate.
  - intros r Hr. apply filter_In in Hr. destruct Hr as [_ E].
    destruct (User.company_id u) as [cid|]; simpl in E; [|discriminate].
    apply Z.eqb_eq in E. congruence.
Qed.

(** X21: the [live] page. For a user that is no super admin the
    [company_id] parameter is ignored: the page shows the company row with
    the id of the user's company, and "company not found" exactly when no
    such row exists. A super admin must name a company with a non-zero
    number; for an id within SQLite's 64-bit integer range the page shows
    the row with that id, or "company not found" when there is none, while
    [api_graph] answers the same request with a graph; for an id SQLite
    cannot hold both routes raise [OverflowError]. *)
Theorem live_scoped ss u c db :
  current_user ss db = Some u ->
  (User.is_superadmin u = false ->
   (forall c', live ss c' db = live ss c db)
   /\ (forall co, live ss c db = LivePage co ->
                  In co (companies db)
                  /\ Some (Company.id co) = User.company_id u)
   /\ (live ss c db = Goto (Some CompanyNotFound) ep_index <->
       forall co, In co (companies db) ->
                  Some (Company.id co) <> User.company_id u))
  /\ (User.is_superadmin u = true ->
      (truthy (get_int c) = false ->
       live ss c db = Goto (Some CompanyIdRequired) ep_admin)
      /\ (forall n, c = Parsed n -> n <> 0 ->
            (forall co, live ss c db = LivePage co ->
                        In co (companies db) /\ Company.id co = n)
            /\ (int64 n = true ->
                (forall co, In co (companies db) -> Company.id co <> n) ->
                live ss c db = Goto (Some CompanyNotFound) ep_index
                /\ forall now_ts,
                     fst (api_graph ss c now_ts db)
                     = Json (graph_of (Some n) now_ts db))
            /\ (sqlite_integer db n = false ->
                live ss c db = Crashed OverflowError
                /\ forall now_ts,
                     fst (api_graph ss c now_ts db)
                     = Raised OverflowError))).
Proof.
  intros Hu. pose proof (current_user_logged_in _ _ _ Hu) as Hl.
  destruct (current_user_in ss db u Hu) as (Hin & _ & _).
  unfold live, login_required_page, api_graph, login_required.
  rewrite Hl, (session_user_some _ _ _ Hu). cbn [negb].
  split; intros Hs; rewrite Hs; cbn [negb].
  - assert (Hq : match User.company_id u with
                 | Some n => sqlite_integer db n
                 | None => true
                 end = true).
    { destruct (User.company_id u) as [n|] eqn:Hc; [|reflexivity].
      apply (user_company_stored db u n Hin Hc). }
    rewrite Hq. cbn [negb].
    split; [reflexivity|]. split.
    + intros co. destruct (find_company _ _) as [co'|] eqn:E; [|discriminate].
      intros [= <-]. apply find_company_some, E.
    + rewrite <- find_company_none.
      destruct (find_company _ _); split; congruence.
  - split.
    + intros H. rewrite H. reflexivity.
    + intros n -> Hn. cbn [get_int truthy]. apply Z.eqb_neq in Hn.
      rewrite Hn. cbn [negb fst]. split; [|split].
      * intros co. destruct (negb (sqlite_integer db n)); [discriminate|].
        destruct (find_company _ _) as [co'|] eqn:E; [|discriminate].
        intros [= <-]. apply find_company_some in E.
        destruct E as [Hc [= E]]. auto.
      * intros Hq Hnone. rewrite (int64_sqlite_integer db n Hq). cbn [negb].
        assert (E : find_company (Some n) db = None).
        { apply find_company_none. intros co Hc [= E]. exact (Hnone co Hc E). }
        rewrite E. split; reflexivity.
      * intros Hq. rewrite Hq. split; reflexivity.
Qed.

(** X22: the [admin] page, for a session with the super admin flag, lists
    every company once, by descending creation time, and every user once,
    by descending id, which on a store with primary keys is the user table
    in reverse. *)
Theorem admin_view_lists ss db :
  truthy (user_id ss) = true -> is_superadmin ss = true ->
  exists cs us,
    admin ss db = AdminPage cs us
    /\ Permutation cs (companies db)
    /\ StronglySorted
         (fun c1 c2 => Company.created_at c2 <= Company.created_at c1) cs
    /\ Permutation us (users db)
    /\ StronglySorted (fun u1 u2 => User.id u2 <= User.id u1) us
    /\ (keyed db -> us = rev (users db)).
Proof.
  intros Hl Hs. unfold admin, superadmin_required_page. rewrite Hl, Hs.
  simpl. eexists. eexists. split; [reflexivity|].
  split; [apply order_by_desc_perm|].
  split; [apply order_by_desc_sorted|].
  split; [apply order_by_desc_perm|].
  split; [apply order_by_desc_sorted|].
  intros (_ & Hk & _). apply order_by_desc_ascending, Hk.
Qed.

(** ** Logging in and out *)

Lemma current_user_of_row u db :
  keyed db -> ids_positive db -> In u (users db) ->
  current_user
    (mkSession (Some (User.id u)) (User.is_superadmin u) (User.company_id u))
    db = Some u.
Proof.
  intros (_ & Hk & _) (_ & Hp & _) Hin.
  unfold current_user. simpl.
  rewrite Forall_forall in Hp.
  specialize (Hp _ (in_map User.id _ _ Hin)).
  destruct (User.id u =? 0) eqn:E; [apply Z.eqb_eq in E; lia|].
  destruct (hd_error _) as [v|] eqn:Ev.
  - apply hd_error_filter in Ev. destruct Ev as [Hv Ei].
    apply Z.eqb_eq in Ei. f_equal.
    apply (key_unique User.id (users db)); auto.
  - rewrite hd_error_filter_none in Ev. specialize (Ev u Hin).
    rewrite Z.eqb_refl in Ev. discriminate.
Qed.

(** X23: logging in and out. On a store with primary keys and positive
    ids, a login that succeeds is for a user row with the given e-mail whose
    stored hash accepts the password; the new session resolves to exactly
    that row, carries its rights and company, and [index] sends it to the
    admin page or the records page by its super admin flag. A login that
    fails, and the login form itself, leave the session as it was. After
    [logout] the session resolves to no user. *)
Theorem login_round_trip check_password_hash e p ss db :
  keyed db -> ids_positive db ->
  (forall ss',
     login check_password_hash POST e p ss db = (Goto None ep_index, ss') ->
     exists u,
       In u (users db) /\ User.email u = e
       /\ check_password_hash (User.password_hash u) (PyStr.or_empty p)
          = true
       /\ current_user ss' db = Some u
       /\ is_superadmin ss' = User.is_superadmin u
       /\ company_id ss' = User.company_id u
       /\ index ss'
          = Goto None (if User.is_superadmin u then ep_admin else ep_records))
  /\ (fst (login check_password_hash POST e p ss db) <> Goto None ep_index ->
      login check_password_hash POST e p ss db
      = (LoginPage (Some LoginFailed), ss))
  /\ ((forall u, In u (users db) -> User.email u = e ->
         check_password_hash (User.password_hash u) (PyStr.or_empty p)
         = false) ->
      login check_password_hash POST e p ss db
      = (LoginPage (Some LoginFailed), ss))
  /\ login check_password_hash GET e p ss db = (LoginPage None, ss)
  /\ current_user (snd (logout ss)) db = None.
Proof.
  intros Hk Hp. unfold login.
  destruct (hd_error _) as [u|] eqn:E.
  - apply hd_error_filter in E. destruct E as [Hin Ee].
    apply pystr_eqb_eq in Ee.
    destruct (check_password_hash _ _) eqn:Hc.
    + split; [|split; [simpl; congruence|split; [|split; reflexivity]]].
      * intros ss' [= <-]. exists u.
        split; [exact Hin|]. split; [exact Ee|]. split; [exact Hc|].
        split; [apply current_user_of_row; assumption|].
        split; [reflexivity|]. split; [reflexivity|].
        unfold index. simpl.
        destruct Hp as (_ & Hp & _). rewrite Forall_forall in Hp.
        specialize (Hp _ (in_map User.id _ _ Hin)).
        destruct (User.id u =? 0) eqn:E0; [apply Z.eqb_eq in E0; lia|].
        simpl. destruct (User.is_superadmin u); reflexivity.
      * intros H. rewrite (H u Hin Ee) in Hc. discriminate.
    + split; [discriminate|]. repeat split.
  - split; [discriminate|]. repeat split.
Qed.

(** * Instances of the further properties *)

Lemma two_tenants_reachable : reachable Scenario.two_tenants.
Proof. apply reachable_run, reachable_run, reachable_empty. Qed.

Lemma store_reachable : reachable Scenario.store.
Proof. apply reachable_run, reachable_empty. Qed.

Lemma stale_keyed : keyed Examples.stale.
Proof. apply reachable_keyed, stale_reachable. Qed.

Lemma member_company_user_stale :
  company_user Scenario.member 1 Examples.stale.
Proof.
  unfold company_user. vm_compute. eexists.
  repeat split. discriminate.
Qed.

Lemma primary_keys_invariant_witness :
  keyed Scenario.two_tenants
  /\ keyed (exec (OpSeed 40 41 42) Scenario.two_tenants)
  /\ ids_positive (exec (OpDeleteRelation Scenario.member (Parsed 1))
                     Scenario.two_tenants).
Proof.
  destruct primary_keys_invariant as (H1 & H2 & H3).
  destruct (H1 _ two_tenants_reachable) as (Hk & Hp & _).
  split; [exact Hk|]. split; [exact (H2 _ _ Hk) | exact (H3 _ _ Hp)].
Defined.

Lemma pair_uniqueness_invariant_witness :
  pairs_unique Scenario.two_tenants
  /\ pairs_unique (exec (OpCreateRelation Scenario.member (Parsed 1)
                           (Parsed 2) 40) Scenario.two_tenants).
Proof.
  destruct pair_uniqueness_invariant as (H1 & H2).
  split; [|apply H2]; exact (H1 _ two_tenants_reachable).
Defined.

Lemma user_table_invariant_witness :
  emails_unique Examples.stale /\ users_shaped Examples.stale.
Proof.
  exact (proj1 user_table_invariant _ stale_reachable).
Defined.

Lemma stored_names_invariant_witness :
  names_stripped Examples.stale
  /\ names_stripped
       (exec (OpCreateRecord Scenario.member
                (Some (PyStr.of_string "  Epsilon ")) None None 50)
          Examples.stale).
Proof.
  destruct stored_names_invariant as (H1 & H2).
  split; [|apply H2]; exact (H1 _ stale_reachable).
Defined.

Lemma endpoints_owned_unless_seeded_witness :
  endpoints_owned
    (exec (OpCreateRelation Scenario.member (Parsed 2) (Parsed 1) 30)
       Scenario.store).
Proof.
  refine (proj1 (proj1 endpoints_owned_unless_seeded
                   (OpCreateRelation Scenario.member (Parsed 2) (Parsed 1) 30)
                   Scenario.store eq_refl store_keyed _)).
  unfold endpoints_owned. vm_compute. constructor.
Defined.

Lemma create_relation_outcomes_witness :
  create_relation Scenario.member (Parsed 1) (Parsed 2) 50 Examples.stale
  = (Raised IntegrityError, Examples.stale).
Proof.
  assert (Hne : 1 <> 2) by lia.
  assert (H1 : owns 1 1 Examples.stale).
  { vm_compute. eexists. split; [left; reflexivity | split; reflexivity]. }
  assert (H2 : owns 1 2 Examples.stale).
  { vm_compute. eexists.
    split; [right; left; reflexivity | split; reflexivity]. }
  destruct (create_relation_outcomes Scenario.member 1 1 2 50 Examples.stale
              member_company_user_stale stale_keyed Hne H1 H2)
    as (_ & _ & H).
  apply H.
  - vm_compute. eexists. split; [left; reflexivity | split; reflexivity].
  - intros (r & Hr & _ & _ & Hc). vm_compute in Hr.
    destruct Hr as [<-|[]]. discriminate Hc.
Defined.

Lemma create_then_delete_restores_witness :
  exists db1,
    create_relation Scenario.member (Parsed 2) (Parsed 1) 30 Scenario.store
    = (created, db1)
    /\ delete_relation Scenario.member (Parsed 1) db1
       = (deleted, Scenario.store).
Proof.
  eexists. split; [vm_compute; reflexivity|].
  refine (proj2 (create_then_delete_restores Scenario.member Scenario.T
                   (Parsed 2) (Parsed 1) 30 Scenario.store _
                   member_company_user _)).
  vm_compute. reflexivity.
Defined.

Lemma reachable_pairs_unique db : reachable db -> pairs_unique db.
Proof.
  induction 1 as [|op db _ IH]; [constructor | apply exec_pairs_unique, IH].
Qed.

Lemma two_tenants_pairs_unique : pairs_unique Scenario.two_tenants.
Proof. apply reachable_pairs_unique, two_tenants_reachable. Qed.

Lemma deleted_relation_can_be_recreated_witness :
  exists db1 db2,
    delete_relation Scenario.member (Parsed 1) Scenario.two_tenants
    = (deleted, db1)
    /\ create_relation Scenario.member (Parsed 2) (Parsed 1) 50 db1
       = (created, db2).
Proof.
  assert (Hin : In (RecordRelation.mk 1 1 2 1 32)
                  (relations Scenario.two_tenants))
    by (vm_compute; left; reflexivity).
  assert (Hlt : 1 < 2) by lia.
  assert (H1 : owns 1 1 Scenario.two_tenants).
  { vm_compute. eexists. split; [left; reflexivity | split; reflexivity]. }
  assert (H2 : owns 1 2 Scenario.two_tenants).
  { vm_compute. eexists.
    split; [right; left; reflexivity | split; reflexivity]. }
  destruct (deleted_relation_can_be_recreated Scenario.member 1
              (RecordRelation.mk 1 1 2 1 32) 50 Scenario.two_tenants
              member_company_user_two_tenants two_tenants_keyed
              two_tenants_pairs_unique Hin eq_refl Hlt H1 H2)
    as (db1 & db2 & Hd & _ & _ & Hc).
  exists db1, db2. split; [exact Hd | exact Hc].
Defined.

Lemma writes_stay_in_tenant_witness :
  untouched 2 Scenario.two_tenants
    (snd (delete_relation Scenario.member (Parsed 1) Scenario.two_tenants))
  /\ untouched 2 Scenario.two_tenants
       (snd (create_record Scenario.member (Some (PyStr.of_string "Zeta"))
               None None 50 Scenario.two_tenants)).
Proof.
  assert (Hne : 2 <> 1) by lia.
  destruct (writes_stay_in_tenant Scenario.member 1 2 Scenario.two_tenants
              member_company_user_two_tenants two_tenants_keyed Hne)
    as (H1 & _ & H3 & _).
  split; [apply H3 | apply H1].
Defined.

Lemma created_rows_appear_in_graph_witness :
  map node_id
    (nodes (graph_of (Some 1) 60
              (snd (create_record Scenario.member
                      (Some (PyStr.of_string " Eta ")) None None 50
                      Scenario.store))))
  = [1; 2; 3].
Proof.
  destruct (created_rows_appear_in_graph Scenario.member 1 60 Scenario.store
              member_company_user) as [H _].
  rewrite (H (Some (PyStr.of_string " Eta ")) None None 50);
    [reflexivity | discriminate].
Defined.

Lemma login_is_required_witness :
  create_relation (mkSession (Some 0) true (Some 1)) Malformed Missing 50
    Scenario.store
  = (Redirect None ep_login, Scenario.store).
Proof.
  refine (proj1 (proj2 (login_is_required (mkSession (Some 0) true (Some 1))
                          Scenario.store _)) Malformed Missing 50).
  reflexivity.
Defined.

Lemma superadmin_is_required_witness :
  create_company Scenario.member (Some (PyStr.of_string "V")) None None None
    None 50 Scenario.store
  = (Redirect (Some NotAuthorized) ep_index, Scenario.store).
Proof.
  refine (proj1 (superadmin_is_required Scenario.member Scenario.store _)
            _ _ _ _ _ _).
  right. reflexivity.
Defined.

Lemma api_graph_answers_witness :
  fst (api_graph Scenario.admin (Parsed 0) 60 Scenario.store) = JsonError400
  /\ fst (api_graph Scenario.admin (Parsed 9) 60 Scenario.store)
     = Json (mkGraph [] [] (Some 9) 60).
Proof.
  assert (Hu : current_user Scenario.admin Scenario.store
               = Some (User.mk 1 INITIAL_ADMIN_EMAIL (PyStr.of_string "h1")
                         true None))
    by (vm_compute; reflexivity).
  split.
  - apply (proj1 (proj2 (proj2 (api_graph_answers Scenario.admin (Parsed 0)
                                  60 Scenario.store)) _ Hu eq_refl)).
    right. right. reflexivity.
  - rewrite (proj1 (proj2 (proj2 (proj2 (api_graph_answers Scenario.admin
                                           (Parsed 9) 60 Scenario.store))
                             _ Hu eq_refl))
               9 eq_refl); [reflexivity | lia | reflexivity].
Defined.

Lemma api_graph_order_witness :
  NoDup (edges (graph_of (Some 1) 60 Scenario.two_tenants)).
Proof.
  refine (proj2 (proj2 (api_graph_order Scenario.member Missing 60
                          Scenario.two_tenants _ two_tenants_keyed
                          two_tenants_pairs_unique _))).
  vm_compute. reflexivity.
Defined.

Lemma init_db_idempotent_witness :
  init_db (PyStr.of_string "other")
    (init_db (PyStr.of_string "h1") empty_db)
  = init_db (PyStr.of_string "h1") empty_db
  /\ map User.password_hash
       (users (init_db (PyStr.of_string "other")
                 (init_db (PyStr.of_string "h1") empty_db)))
     = [PyStr.of_string "h1"].
Proof.
  pose proof (proj1 (init_db_idempotent (PyStr.of_string "h1")
                       (PyStr.of_string "other") empty_db)) as H.
  split; [exact H|]. rewrite H. reflexivity.
Defined.

Lemma create_company_validation_witness :
  create_company Scenario.admin (Some (PyStr.of_string "   ")) None None None
    None 50 Scenario.store
  = (Redirect (Some CompanyNameRequired) ep_admin, Scenario.store).
Proof.
  destruct (create_company_validation Scenario.admin
              (Some (PyStr.of_string "   ")) None None None None 50
              Scenario.store eq_refl eq_refl) as (H1 & H2 & _).
  apply injective_projections; [apply H1 | apply H2]; reflexivity.
Defined.

Lemma create_user_outcomes_witness :
  create_user Scenario.admin (PyStr.of_string "member@t.local")
    (Some (PyStr.of_string "pw")) (Parsed 7) None (PyStr.of_string "h9")
    Scenario.store
  = (Redirect (Some EmailTaken) ep_admin, Scenario.store)
  /\ create_user Scenario.admin (PyStr.of_string "member@t.local")
       (Some (PyStr.of_string "pw")) Missing None (PyStr.of_string "h9")
       Scenario.store
     = (Redirect (Some ChooseCompany) ep_admin, Scenario.store).
Proof.
  assert (He : PyStr.of_string "member@t.local" <> []) by discriminate.
  assert (Hp : PyStr.or_empty (Some (PyStr.of_string "pw")) <> [])
    by discriminate.
  split.
  - refine (proj1 (proj2 (create_user_outcomes Scenario.admin _ _ (Parsed 7)
                            None (PyStr.of_string "h9") Scenario.store
                            eq_refl eq_refl He Hp)) _ _).
    + right. discriminate.
    + vm_compute. eexists.
      split; [right; left; reflexivity | reflexivity].
  - refine (proj1 (create_user_outcomes Scenario.admin _ _ Missing
                     None (PyStr.of_string "h9") Scenario.store
                     eq_refl eq_refl He Hp) _ _); reflexivity.
Defined.

Lemma exceptions_of_the_routes_witness :
  pair_stored 1 2 Examples.stale.
Proof.
  destruct (proj2 (proj2 (proj2 (proj2
              (exceptions_of_the_routes Scenario.member Examples.stale
                 IntegrityError)))) 1 2 50)
    as [[H _]|[[H _]|[[H _]|[_ H]]]].
  - vm_compute. reflexivity.
  - discriminate H.
  - discriminate H.
  - discriminate H.
  - exact H.
Defined.

Lemma records_view_scoped_witness :
  exists recs,
    records_view Scenario.outsider Scenario.two_tenants
    = RecordsPage (find_company (Some 2) Scenario.two_tenants) recs
        (list_relations (Some 2) Scenario.two_tenants)
    /\ Permutation recs (tenant_records (Some 2) Scenario.two_tenants).
Proof.
  destruct (proj2 (records_view_scoped Scenario.outsider
                     (User.mk 3 (PyStr.of_string "member@u.local")
                        (PyStr.of_string "h3") false (Some 2))
                     Scenario.two_tenants eq_refl) eq_refl)
    as (recs & E & P & _).
  exists recs. split; [exact E | exact P].
Defined.

Lemma live_scoped_witness :
  live Scenario.member (Parsed 2) Scenario.two_tenants
  = live Scenario.member Missing Scenario.two_tenants
  /\ live Scenario.admin (Parsed 9) Scenario.two_tenants
     = Goto (Some CompanyNotFound) ep_index.
Proof.
  split.
  - apply (proj1 (proj1 (live_scoped Scenario.member
                           (User.mk 2 (PyStr.of_string "member@t.local")
                              (PyStr.of_string "h2") false (Some 1))
                           Missing Scenario.two_tenants eq_refl) eq_refl)).
  - assert (Hne : 9 <> 0) by lia.
    destruct (proj2 (proj2 (live_scoped Scenario.admin
                              (User.mk 1 INITIAL_ADMIN_EMAIL
                                 (PyStr.of_string "h1") true None)
                              (Parsed 9) Scenario.two_tenants eq_refl)
                       eq_refl) 9 eq_refl Hne) as (_ & H & _).
    apply H; [reflexivity|].
    vm_compute. intros co [<-|[<-|[]]]; discriminate.
Defined.

Lemma admin_view_lists_witness :
  exists cs us,
    admin Scenario.admin Scenario.two_tenants = AdminPage cs us
    /\ map User.id us = [3; 2; 1]
    /\ map Company.id cs = [2; 1].
Proof.
  destruct (admin_view_lists Scenario.admin Scenario.two_tenants
              eq_refl eq_refl) as (cs & us & E & _ & _ & _ & _ & Hr).
  exists cs, us. split; [exact E|].
  vm_compute in E. injection E as <- <-. split; reflexivity.
Defined.

Lemma login_round_trip_witness :
  exists ss',
    login Examples.plain_check POST (PyStr.of_string "member@t.local")
      (Some (PyStr.of_string "h2")) (mkSession None false None)
      Scenario.store
    = (Goto None ep_index, ss')
    /\ index ss' = Goto None ep_records
    /\ company_id ss' = Some 1.
Proof.
  eexists. split; [vm_compute; reflexivity|].
  destruct (proj1 (login_round_trip Examples.plain_check
                     (PyStr.of_string "member@t.local")
                     (Some (PyStr.of_string "h2"))
                     (mkSession None false None) Scenario.store
                     store_keyed (reachable_positive _ store_reachable))
              (mkSession (Some 2) false (Some 1)))
    as (u & _ & _ & _ & _ & _ & Hc & Hi).
  - vm_compute. reflexivity.
  - split; reflexivity.
Defined.
